(** * Pinpoint word game: the game-state machine of [js/game.js]

    A shallow embedding of the game logic of [js/game.js] (answer
    normalisation and validation, the session state held in the global
    [gameState] object, the guess-processing transition and puzzle
    navigation) together with the part of the page the logic writes to.

    Conventions of the embedding.
    - A JavaScript string is a [string]: a sequence of code units, here the
      code units below 256 (Basic Latin and Latin-1 Supplement), on which
      [String.prototype.toLowerCase] and [String.prototype.trim] are given
      by the tables below.  Code units from 256 on are outside the model.
    - JavaScript numbers that hold puzzle ids and counters are integers,
      modelled by [Z]; array lengths are [nat].
    - The page supplies every element the code looks up without a guard
      ([clues-container], [clue-count], [feedback-message], [guess-input],
      [game-screen], [result-status], [result-category]); the elements the
      code guards with [if] ([guess-counter], [confetti-container]) may be
      absent and are modelled by [option].
    - [console.log] diagnostics and the scrolling of the latest clue into
      view (a timer that writes no state) are not modelled; [console.error]
      is.
    - [gameState.puzzles] is an array in every world.  The one way the code
      can make it [undefined], a response without a puzzles array, is
      modelled in [loadPuzzles] and [initApp]; runs of events start from
      the other responses. *)

From Stdlib Require Import Bool Ascii String List ZArith NArith Lia.
Import ListNotations.

Local Open Scope string_scope.
Local Open Scope Z_scope.

(* ====================================================================== *)
(** * JavaScript strings *)
(* ====================================================================== *)

Module JSString.

(** Code of a code unit. *)
Definition code (c : ascii) : N := N_of_ascii c.

(** Upper-case letters of Basic Latin (A-Z) and of the Latin-1 Supplement
    (U+00C0-U+00DE without the multiplication sign U+00D7). *)
Definition isUpper (c : ascii) : bool :=
  let n := code c in
  ((65 <=? n) && (n <=? 90)
   || (192 <=? n) && (n <=? 222) && negb (n =? 215))%N.

(** Lower-case mapping of one code unit: an upper-case letter moves 32
    places up, every other code unit is left alone. *)
Definition lowerChar (c : ascii) : ascii :=
  if isUpper c then ascii_of_N (code c + 32) else c.

(** [WhiteSpace] and [LineTerminator] code units of ECMAScript below 256:
    TAB, LF, VT, FF, CR, SP and NBSP. *)
Definition isWhiteSpace (c : ascii) : bool :=
  let n := code c in
  ((n =? 9) || (n =? 10) || (n =? 11) || (n =? 12) || (n =? 13)
   || (n =? 32) || (n =? 160))%N.

(** [s.toLowerCase()] *)
Fixpoint toLowerCase (s : string) : string :=
  match s with
  | EmptyString => EmptyString
  | String c s' => String (lowerChar c) (toLowerCase s')
  end.

(** [s.trimStart()]: drop the leading white space. *)
Fixpoint trimStart (s : string) : string :=
  match s with
  | EmptyString => EmptyString
  | String c s' => if isWhiteSpace c then trimStart s' else s
  end.

(** [s.trimEnd()]: drop the trailing white space. *)
Fixpoint trimEnd (s : string) : string :=
  match s with
  | EmptyString => EmptyString
  | String c s' =>
      match trimEnd s' with
      | EmptyString => if isWhiteSpace c then EmptyString
                       else String c EmptyString
      | r => String c r
      end
  end.

(** [s.trim()]: white space removed from both ends. *)
Definition trim (s : string) : string := trimEnd (trimStart s).

(** Truthiness of a string: only the empty string is falsy. *)
Definition truthy (s : string) : bool :=
  match s with EmptyString => false | String _ _ => true end.

(** A string made of white space only (the empty string included). *)
Fixpoint allWhiteSpace (s : string) : bool :=
  match s with
  | EmptyString => true
  | String c s' => isWhiteSpace c && allWhiteSpace s'
  end.

End JSString.
Export JSString.

(* ====================================================================== *)
(** * Utility functions of [game.js] *)
(* ====================================================================== *)

(** [function normalizeInput(input) { return input.toLowerCase().trim(); }] *)
Definition normalizeInput (input : string) : string :=
  trim (toLowerCase input).

(** [acceptedAnswers.some(answer => normalizeInput(answer) === normalized)] *)
Definition validateAnswer (playerInput : string)
                          (acceptedAnswers : list string) : bool :=
  let normalized := normalizeInput playerInput in
  existsb (fun answer => String.eqb (normalizeInput answer) normalized)
          acceptedAnswers.

(* ====================================================================== *)
(** * Data model *)
(* ====================================================================== *)

(** A record of [data/puzzles.json]. *)
Record Puzzle : Type := mkPuzzle {
  id : Z;
  category : string;
  clues : list string;
  acceptedAnswers : list string
}.

(** [gameState.status]: ['playing'], ['won'] or ['lost']. *)
Inductive Status : Type := playing | won | lost.

(** [gameState.uiState] and the [data-state] attribute of [#game-screen]:
    ['playing'], ['results'] or ['completed']. *)
Inductive UiState : Type := uiPlaying | uiResults | uiCompleted.

Definition Status_eqb (a b : Status) : bool :=
  match a, b with
  | playing, playing | won, won | lost, lost => true
  | _, _ => false
  end.

(** The global [gameState] object. *)
Record GameState : Type := mkGameState {
  puzzles : list Puzzle;
  currentPuzzleId : Z;
  revealedCluesCount : Z;
  guesses : list string;
  status : Status;
  uiState : UiState;
  startTime : option Z
}.

(** [let gameState = { puzzles: [], currentPuzzleId: 1, ... }] *)
Definition initialGameState : GameState :=
  mkGameState [] 1 1 [] playing uiPlaying None.

(** The [type] argument of [displayFeedback]. *)
Inductive FeedbackType : Type := info | error | success.

(** The part of the page the game logic writes to. *)
Record Dom : Type := mkDom {
  cluesContainer : list string;       (* text of the [.clue-item] children *)
  clueCount : Z;                      (* number shown in [#clue-count] *)
  feedback : string * FeedbackType;   (* text and class of [#feedback-message] *)
  guessCounter : option nat;          (* [#guess-counter], when the page has it *)
  guessInput : string;                (* value of [#guess-input] *)
  dataState : UiState;                (* [data-state] of [#game-screen] *)
  resultStatus : string * bool;       (* text of [#result-status]; class won? *)
  resultCategory : string;            (* text of [#result-category] *)
  confetti : option nat               (* pieces in [#confetti-container] *)
}.

(** Messages written with [console.error]. *)
Inductive ConsoleError : Type :=
| NoPuzzleFoundForID (puzzleId : Z)
| ErrorLoadingPuzzles
| RunFromLocalWebServer.

(** Everything a function of [game.js] can read or write. *)
Record World : Type := mkWorld {
  gameState : GameState;
  dom : Dom;
  console : list ConsoleError
}.

(** ** Field updates *)

Definition set_puzzles (v : list Puzzle) (g : GameState) : GameState :=
  mkGameState v (currentPuzzleId g) (revealedCluesCount g) (guesses g)
              (status g) (uiState g) (startTime g).
Definition set_currentPuzzleId (v : Z) (g : GameState) : GameState :=
  mkGameState (puzzles g) v (revealedCluesCount g) (guesses g)
              (status g) (uiState g) (startTime g).
Definition set_revealedCluesCount (v : Z) (g : GameState) : GameState :=
  mkGameState (puzzles g) (currentPuzzleId g) v (guesses g)
              (status g) (uiState g) (startTime g).
Definition set_guesses (v : list string) (g : GameState) : GameState :=
  mkGameState (puzzles g) (currentPuzzleId g) (revealedCluesCount g) v
              (status g) (uiState g) (startTime g).
Definition set_status (v : Status) (g : GameState) : GameState :=
  mkGameState (puzzles g) (currentPuzzleId g) (revealedCluesCount g)
              (guesses g) v (uiState g) (startTime g).
Definition set_uiState (v : UiState) (g : GameState) : GameState :=
  mkGameState (puzzles g) (currentPuzzleId g) (revealedCluesCount g)
              (guesses g) (status g) v (startTime g).
Definition set_startTime (v : option Z) (g : GameState) : GameState :=
  mkGameState (puzzles g) (currentPuzzleId g) (revealedCluesCount g)
              (guesses g) (status g) (uiState g) v.

Definition set_cluesContainer (v : list string) (d : Dom) : Dom :=
  mkDom v (clueCount d) (feedback d) (guessCounter d) (guessInput d)
        (dataState d) (resultStatus d) (resultCategory d) (confetti d).
Definition set_clueCount (v : Z) (d : Dom) : Dom :=
  mkDom (cluesContainer d) v (feedback d) (guessCounter d) (guessInput d)
        (dataState d) (resultStatus d) (resultCategory d) (confetti d).
Definition set_feedback (v : string * FeedbackType) (d : Dom) : Dom :=
  mkDom (cluesContainer d) (clueCount d) v (guessCounter d) (guessInput d)
        (dataState d) (resultStatus d) (resultCategory d) (confetti d).
Definition set_guessCounter (v : option nat) (d : Dom) : Dom :=
  mkDom (cluesContainer d) (clueCount d) (feedback d) v (guessInput d)
        (dataState d) (resultStatus d) (resultCategory d) (confetti d).
Definition set_guessInput (v : string) (d : Dom) : Dom :=
  mkDom (cluesContainer d) (clueCount d) (feedback d) (guessCounter d) v
        (dataState d) (resultStatus d) (resultCategory d) (confetti d).
Definition set_dataState (v : UiState) (d : Dom) : Dom :=
  mkDom (cluesContainer d) (clueCount d) (feedback d) (guessCounter d)
        (guessInput d) v (resultStatus d) (resultCategory d) (confetti d).
Definition set_resultStatus (v : string * bool) (d : Dom) : Dom :=
  mkDom (cluesContainer d) (clueCount d) (feedback d) (guessCounter d)
        (guessInput d) (dataState d) v (resultCategory d) (confetti d).
Definition set_resultCategory (v : string) (d : Dom) : Dom :=
  mkDom (cluesContainer d) (clueCount d) (feedback d) (guessCounter d)
        (guessInput d) (dataState d) (resultStatus d) v (confetti d).
Definition set_confetti (v : option nat) (d : Dom) : Dom :=
  mkDom (cluesContainer d) (clueCount d) (feedback d) (guessCounter d)
        (guessInput d) (dataState d) (resultStatus d) (resultCategory d) v.

(* ====================================================================== *)
(** * Computations over the world, with exceptions *)
(* ====================================================================== *)

(** The one exception the game logic can raise: reading a property of
    [undefined]. *)
Inductive Exception : Type := TypeError.

(** How a call ends: normally with a value, or abruptly with an exception;
    either way the writes made so far stay in the world. *)
Inductive Completion (A : Type) : Type :=
| Normal (a : A) (w : World)
| Abrupt (e : Exception) (w : World).
Arguments Normal {A} a w.
Arguments Abrupt {A} e w.

Definition JS (A : Type) : Type := World -> Completion A.

Definition ret {A} (a : A) : JS A := fun w => Normal a w.
Definition throw {A} (e : Exception) : JS A := fun w => Abrupt e w.
Definition bind {A B} (m : JS A) (k : A -> JS B) : JS B :=
  fun w => match m w with
           | Normal a w' => k a w'
           | Abrupt e w' => Abrupt e w'
           end.

Notation "x <- m ;; k" := (bind m (fun x => k))
  (at level 61, m at next level, right associativity).
Notation "m ;; k" := (bind m (fun _ => k))
  (at level 61, right associativity).

(** The world a call leaves behind, however it ended. *)
Definition worldOf {A} (c : Completion A) : World :=
  match c with Normal _ w => w | Abrupt _ w => w end.

(** Did the call end with an exception? *)
Definition threw {A} (c : Completion A) : bool :=
  match c with Normal _ _ => false | Abrupt _ _ => true end.

Definition getsGame {A} (f : GameState -> A) : JS A :=
  fun w => Normal (f (gameState w)) w.
Definition getsDom {A} (f : Dom -> A) : JS A :=
  fun w => Normal (f (dom w)) w.
Definition modifyGame (f : GameState -> GameState) : JS unit :=
  fun w => Normal tt (mkWorld (f (gameState w)) (dom w) (console w)).
Definition modifyDom (f : Dom -> Dom) : JS unit :=
  fun w => Normal tt (mkWorld (gameState w) (f (dom w)) (console w)).
Definition consoleError (m : ConsoleError) : JS unit :=
  fun w => Normal tt (mkWorld (gameState w) (dom w) (console w ++ [m])).

(** [o.f] where [o] may be [undefined]. *)
Definition prop {A} (f : Puzzle -> A) (o : option Puzzle) : JS A :=
  match o with
  | Some p => ret (f p)
  | None => throw TypeError
  end.

(** [a.slice(0, end)] for an integer [end]. *)
Definition slice0 {A} (e : Z) (a : list A) : list A :=
  let len := Z.of_nat (length a) in
  let k := if e <? 0 then Z.max (len + e) 0 else Z.min e len in
  firstn (Z.to_nat k) a.

(* ====================================================================== *)
(** * The game logic *)
(* ====================================================================== *)

(** [gameState.puzzles.find(p => p.id === gameState.currentPuzzleId)];
    [None] is JavaScript's [undefined]. *)
Definition findPuzzle (puzzleId : Z) (ps : list Puzzle) : option Puzzle :=
  find (fun p => id p =? puzzleId) ps.

Definition currentPuzzle (g : GameState) : option Puzzle :=
  findPuzzle (currentPuzzleId g) (puzzles g).

Definition getCurrentPuzzle : JS (option Puzzle) := getsGame currentPuzzle.

(** ** DOM manipulation *)

Definition displayFeedback (message : string) (type : FeedbackType) : JS unit :=
  modifyDom (set_feedback (message, type)).

Definition updateGuessCounter : JS unit :=
  n <- getsGame (fun g => length (guesses g)) ;;
  modifyDom (fun d => match guessCounter d with
                      | Some _ => set_guessCounter (Some n) d
                      | None => d
                      end).

Definition clearInput : JS unit := modifyDom (set_guessInput "").

Definition setUIState (state : UiState) : JS unit :=
  modifyGame (set_uiState state) ;;
  modifyDom (set_dataState state).

Definition createConfetti : JS unit :=
  modifyDom (fun d => match confetti d with
                      | Some _ => set_confetti (Some 20%nat) d
                      | None => d
                      end).

(** ** The logic as the first copy in [game.js] has it *)

Definition getRevealedClues : JS (list string) :=
  puzzle <- getCurrentPuzzle ;;
  match puzzle with
  | None =>
      cur <- getsGame currentPuzzleId ;;
      consoleError (NoPuzzleFoundForID cur) ;;
      ret []
  | Some p =>
      n <- getsGame revealedCluesCount ;;
      ret (slice0 n (clues p))
  end.

(** Only the clues not yet on the page are appended: the loop runs from
    the number of children of the container to the number of revealed
    clues. *)
Definition updateCluesDisplay : JS unit :=
  revealedClues <- getRevealedClues ;;
  currentClueCount <- getsDom (fun d => length (cluesContainer d)) ;;
  modifyDom (fun d => set_cluesContainer
                        (cluesContainer d ++ skipn currentClueCount revealedClues) d) ;;
  n <- getsGame revealedCluesCount ;;
  modifyDom (set_clueCount n).

(** [initGame(puzzleId)]; [now] is the value [Date.now()] returns. *)
Definition initGame (now : Z) (puzzleId : Z) : JS unit :=
  modifyGame (set_currentPuzzleId puzzleId) ;;
  modifyGame (set_revealedCluesCount 1) ;;
  modifyGame (set_guesses []) ;;
  modifyGame (set_status playing) ;;
  modifyGame (set_startTime (Some now)) ;;
  modifyDom (set_cluesContainer []) ;;
  displayFeedback "" info ;;
  updateCluesDisplay ;;
  updateGuessCounter ;;
  clearInput ;;
  setUIState uiPlaying.

Definition completeGame (isWon : bool) : JS unit :=
  puzzle <- getCurrentPuzzle ;;
  modifyDom (set_resultStatus (if isWon then "You won!" else "Game over", isWon)) ;;
  c <- prop category puzzle ;;
  modifyDom (set_resultCategory c) ;;
  setUIState uiResults.

Definition processGuess (guess : string) : JS unit :=
  if negb (truthy (trim guess)) then
    displayFeedback "Please enter a guess" error
  else
    st <- getsGame status ;;
    if negb (Status_eqb st playing) then
      ret tt
    else
      puzzle <- getCurrentPuzzle ;;
      modifyGame (fun g => set_guesses (guesses g ++ [guess]) g) ;;
      updateGuessCounter ;;
      accepted <- prop acceptedAnswers puzzle ;;
      if validateAnswer guess accepted then
        modifyGame (set_status won) ;;
        displayFeedback "You won!" success ;;
        completeGame true
      else
        n <- getsGame (fun g => length (guesses g)) ;;
        if (5 <=? n)%nat then
          modifyGame (set_status lost) ;;
          displayFeedback "Game over. Maximum guesses reached." error ;;
          completeGame false
        else
          shown <- getsGame revealedCluesCount ;;
          if shown <? 5 then
            modifyGame (set_revealedCluesCount (shown + 1)) ;;
            updateCluesDisplay ;;
            displayFeedback "Incorrect! New clue revealed." error ;;
            clearInput
          else
            displayFeedback "Incorrect! Try again." error ;;
            clearInput.

(** ** Event handlers *)

Definition handleFormSubmit : JS unit :=
  guess <- getsDom guessInput ;;
  processGuess guess.

(** At the last puzzle this copy starts no game: it shows the completion
    screen. *)
Definition handleNextPuzzle (now : Z) : JS unit :=
  cur <- getsGame currentPuzzleId ;;
  let nextPuzzleId := cur + 1 in
  n <- getsGame (fun g => length (puzzles g)) ;;
  if nextPuzzleId <=? Z.of_nat n then
    initGame now nextPuzzleId
  else
    setUIState uiCompleted ;;
    createConfetti.

Definition handleReplay (now : Z) : JS unit :=
  cur <- getsGame currentPuzzleId ;;
  initGame now cur.

(** ** Initialisation *)

(** What fetching [data/puzzles.json] and reading the response gave:
    - [LoadFailed]: the fetch was rejected, the status was not ok, the body
      was not JSON, or reading [data.puzzles] raised;
    - [NoPuzzlesArray]: the body parsed to an object without [puzzles], so
      [data.puzzles] is [undefined];
    - [Loaded ps]: [data.puzzles] is the array [ps]. *)
Inductive Response : Type :=
| LoadFailed
| NoPuzzlesArray
| Loaded (ps : list Puzzle).

(** [loadPuzzles()].  On [NoPuzzlesArray] the code assigns [undefined] to
    [gameState.puzzles]; the [console.log] that then reads its [length]
    raises inside the [try], and the [catch] block runs as for a failed
    load.  A game state holds an array of puzzles, so the world returned in
    that case keeps the array it had, where the code has [undefined]. *)
Definition loadPuzzles (response : Response) : JS unit :=
  match response with
  | Loaded ps => modifyGame (set_puzzles ps)
  | NoPuzzlesArray | LoadFailed =>
      consoleError ErrorLoadingPuzzles ;;
      consoleError RunFromLocalWebServer ;;
      displayFeedback "Error loading puzzles. Please refresh the page." error
  end.

(** [initApp()].  After [NoPuzzlesArray], [gameState.puzzles.length] reads a
    property of [undefined] and raises. *)
Definition initApp (now : Z) (response : Response) : JS unit :=
  loadPuzzles response ;;
  match response with
  | NoPuzzlesArray => throw TypeError
  | _ =>
      n <- getsGame (fun g => length (puzzles g)) ;;
      if (0 <? n)%nat then
        initGame now 1
      else
        displayFeedback "No puzzles available. Please check data/puzzles.json" error
  end.

(** The responses that leave [gameState.puzzles] an array: a failed load
    ([None]) or a loaded array. *)
Definition responseOf (fetched : option (list Puzzle)) : Response :=
  match fetched with
  | Some ps => Loaded ps
  | None => LoadFailed
  end.

(** ** The second copy in [game.js]

    The file carries a second copy of the logic, which differs from the
    first in how it renders the clues, in some message texts, and in what
    the next-puzzle button does at the last puzzle. *)
Module LoopBack.

(** No guard: [puzzle.clues] on a missing puzzle raises. *)
Definition getRevealedClues : JS (list string) :=
  puzzle <- getCurrentPuzzle ;;
  cl <- prop clues puzzle ;;
  n <- getsGame revealedCluesCount ;;
  ret (slice0 n cl).

(** The container is cleared and every revealed clue added again. *)
Definition updateCluesDisplay : JS unit :=
  revealedClues <- getRevealedClues ;;
  modifyDom (set_cluesContainer []) ;;
  modifyDom (fun d => set_cluesContainer (cluesContainer d ++ revealedClues) d) ;;
  n <- getsGame revealedCluesCount ;;
  modifyDom (set_clueCount n).

Definition initGame (now : Z) (puzzleId : Z) : JS unit :=
  modifyGame (set_currentPuzzleId puzzleId) ;;
  modifyGame (set_revealedCluesCount 1) ;;
  modifyGame (set_guesses []) ;;
  modifyGame (set_status playing) ;;
  modifyGame (set_startTime (Some now)) ;;
  displayFeedback "" info ;;
  updateCluesDisplay ;;
  updateGuessCounter ;;
  clearInput ;;
  setUIState uiPlaying.

(** At the last puzzle this copy loops back to puzzle 1. *)
Definition handleNextPuzzle (now : Z) : JS unit :=
  cur <- getsGame currentPuzzleId ;;
  let nextPuzzleId := cur + 1 in
  n <- getsGame (fun g => length (puzzles g)) ;;
  if nextPuzzleId <=? Z.of_nat n then
    initGame now nextPuzzleId
  else
    initGame now 1.

(** A correct guess shows the result with a check mark, a lost game with a
    cross: code units above 255, written here in UTF-8.  The texts are only
    displayed. *)
Definition completeGame (isWon : bool) : JS unit :=
  puzzle <- getCurrentPuzzle ;;
  modifyDom (set_resultStatus (if isWon then "✓ You Won!" else "✗ Game Over", isWon)) ;;
  c <- prop category puzzle ;;
  modifyDom (set_resultCategory c) ;;
  setUIState uiResults.

Definition processGuess (guess : string) : JS unit :=
  if negb (truthy (trim guess)) then
    displayFeedback "Please enter a guess" error
  else
    st <- getsGame status ;;
    if negb (Status_eqb st playing) then
      ret tt
    else
      puzzle <- getCurrentPuzzle ;;
      modifyGame (fun g => set_guesses (guesses g ++ [guess]) g) ;;
      updateGuessCounter ;;
      accepted <- prop acceptedAnswers puzzle ;;
      if validateAnswer guess accepted then
        modifyGame (set_status won) ;;
        displayFeedback "Correct! You won!" success ;;
        completeGame true
      else
        n <- getsGame (fun g => length (guesses g)) ;;
        if (5 <=? n)%nat then
          modifyGame (set_status lost) ;;
          displayFeedback "Game Over! Maximum guesses reached." error ;;
          completeGame false
        else
          shown <- getsGame revealedCluesCount ;;
          if shown <? 5 then
            modifyGame (set_revealedCluesCount (shown + 1)) ;;
            updateCluesDisplay ;;
            displayFeedback "Incorrect! New clue revealed." error ;;
            clearInput
          else
            displayFeedback "Incorrect! Try again." error ;;
            clearInput.

Definition handleReplay (now : Z) : JS unit :=
  cur <- getsGame currentPuzzleId ;;
  initGame now cur.

End LoopBack.

(** ** Runs *)

(** What the player and the page can make the code do. *)
Inductive Event : Type :=
| EvInitGame (now : Z) (puzzleId : Z)
| EvProcessGuess (guess : string)
| EvSubmit (typed : string)
| EvNextPuzzle (now : Z)
| EvReplay (now : Z)
| EvInitApp (now : Z) (fetched : option (list Puzzle)).

(** The call an event makes.  [EvSubmit] is the player typing [typed] in
    the input and submitting the form.  [EvInitApp] is a page load whose
    response failed or carried a puzzles array: runs of events stay within
    the worlds where [gameState.puzzles] is an array. *)
Definition handler (ev : Event) : JS unit :=
  match ev with
  | EvInitGame now puzzleId => initGame now puzzleId
  | EvProcessGuess guess => processGuess guess
  | EvSubmit typed => modifyDom (set_guessInput typed) ;; handleFormSubmit
  | EvNextPuzzle now => handleNextPuzzle now
  | EvReplay now => handleReplay now
  | EvInitApp now fetched => initApp now (responseOf fetched)
  end.

(** One event: the world it leaves, whether or not the handler raised. *)
Definition step (w : World) (ev : Event) : World := worldOf (handler ev w).

Definition run (evs : list Event) (w : World) : World := fold_left step evs w.

(** The session fields of a world. *)
Definition session (w : World) : Z * Z * list string * Status :=
  let g := gameState w in
  (currentPuzzleId g, revealedCluesCount g, guesses g, status g).

(** ** Test data: the puzzle of the spec's scenarios *)

Definition fruits : Puzzle :=
  mkPuzzle 1 "fruits" ["apple"; "banana"; "cherry"; "mango"; "pear"]
           ["fruits"; "fruit"].
Definition colours : Puzzle :=
  mkPuzzle 2 "colours" ["red"; "green"; "blue"; "pink"; "grey"]
           ["colours"; "colors"; "color"].

Definition blankDom : Dom :=
  mkDom [] 1 ("", info) None "" uiPlaying ("", false) "" None.

Definition bootWorld : World := mkWorld initialGameState blankDom [].

(** The world after the page loaded the two puzzles and started puzzle 1. *)
Definition demoWorld : World := step bootWorld (EvInitApp 0 (Some [fruits; colours])).

(* ====================================================================== *)
(** * Notions used in the statements *)
(* ====================================================================== *)

(** What [trimStart] returns is empty or starts with a code unit that is
    not white space. *)
Definition startsClean (s : string) : Prop :=
  match s with
  | EmptyString => True
  | String c _ => isWhiteSpace c = false
  end.

(** A casing or outer-white-space variant of [a]: white space, then a string
    that lower-cases to what [a] lower-cases to, then white space. *)
Definition variantOf (a v : string) : Prop :=
  exists pre core post,
    v = pre ++ core ++ post
    /\ allWhiteSpace pre = true /\ allWhiteSpace post = true
    /\ toLowerCase core = toLowerCase a.

(** A guess is wrong for a puzzle: not blank, and not an accepted answer. *)
Definition wrongFor (p : Puzzle) (guess : string) : Prop :=
  normalizeInput guess <> "" /\ validateAnswer guess (acceptedAnswers p) = false.

(** What [processGuess] leaves in [gameState]; [processGuess_gameState]
    proves it. *)
Definition afterGuess (guess : string) (g : GameState) : GameState :=
  if negb (truthy (trim guess)) then g
  else if negb (Status_eqb (status g) playing) then g
  else
    let recorded := set_guesses (guesses g ++ [guess]) g in
    match currentPuzzle g with
    | None => recorded
    | Some p =>
        if validateAnswer guess (acceptedAnswers p) then
          set_uiState uiResults (set_status won recorded)
        else if (5 <=? length (guesses recorded))%nat then
          set_uiState uiResults (set_status lost recorded)
        else if revealedCluesCount g <? 5 then
          set_revealedCluesCount (revealedCluesCount g + 1) recorded
        else recorded
    end.

(** A session just started: one clue, no guess, in play on [puzzleId]. *)
Definition started (now puzzleId : Z) (ps : list Puzzle) : GameState :=
  mkGameState ps puzzleId 1 [] playing uiPlaying (Some now).

(** What an event leaves in [gameState]; [step_gameState] proves it. *)
Definition afterEvent (ev : Event) (g : GameState) : GameState :=
  match ev with
  | EvInitGame now puzzleId => started now puzzleId (puzzles g)
  | EvProcessGuess guess | EvSubmit guess => afterGuess guess g
  | EvNextPuzzle now =>
      if currentPuzzleId g + 1 <=? Z.of_nat (length (puzzles g))
      then started now (currentPuzzleId g + 1) (puzzles g)
      else set_uiState uiCompleted g
  | EvReplay now => started now (currentPuzzleId g) (puzzles g)
  | EvInitApp now fetched =>
      let g' := match fetched with
                | Some ps => set_puzzles ps g
                | None => g
                end in
      if (0 <? length (puzzles g'))%nat then started now 1 (puzzles g') else g'
  end.

(** While in play, one clue is revealed beyond the number of guesses
    recorded, and at most four guesses are recorded. *)
Definition inStep (g : GameState) : Prop :=
  status g = playing ->
  revealedCluesCount g = Z.of_nat (length (guesses g)) + 1
  /\ (length (guesses g) <= 4)%nat.

(** The policy in the spec's words: the id after the current one if the
    repository has a puzzle with that id, else the id of the first puzzle
    (none when the repository is empty). *)
Definition nextPuzzleId_spec (ps : list Puzzle) (cur : Z) : option Z :=
  match findPuzzle (cur + 1) ps with
  | Some _ => Some (cur + 1)
  | None => match ps with
            | first :: _ => Some (id first)
            | [] => None
            end
  end.

(** The ids of the repository are 1, 2, ..., n in this order. *)
Definition dense (ps : list Puzzle) : Prop :=
  map id ps = map Z.of_nat (seq 1 (length ps)).

(* ====================================================================== *)
(** * The test runner of [tests/validation.test.js] *)
(* ====================================================================== *)

(** The test file repeats [normalizeInput] and [validateAnswer] word for
    word; the definitions above stand for both.  [assertEqual], which no
    test calls, and the console output are left out. *)
Module ValidationTest.

(** One entry of [this.tests]: the description, whether the test passed,
    and the message of the error it raised. *)
Record TestRecord : Type := mkTestRecord {
  description : string;
  hasPassed : bool;
  errorMessage : option string
}.

(** The fields of a [TestRunner]. *)
Record TestRunner : Type := mkTestRunner {
  passed : nat;
  failed : nat;
  tests : list TestRecord
}.

(** [new TestRunner()] *)
Definition newRunner : TestRunner := mkTestRunner 0 0 [].

(** What running a test function gives: [None] when it returns, the message
    of the [Error] when it raises one. *)
Definition TestFn : Type := option string.

(** [assert(condition, message)] *)
Definition assert (condition : bool) (message : string) : TestFn :=
  if condition then None else Some message.

(** [test(description, testFn)] *)
Definition test (desc : string) (testFn : TestFn) (r : TestRunner) : TestRunner :=
  match testFn with
  | None =>
      mkTestRunner (passed r + 1) (failed r)
                   (tests r ++ [mkTestRecord desc true None])
  | Some message =>
      mkTestRunner (passed r) (failed r + 1)
                   (tests r ++ [mkTestRecord desc false (Some message)])
  end.

(** What [summary()] returns. *)
Definition summary (r : TestRunner) : bool := (failed r =? 0)%nat.

Definition runTests (ts : list (string * TestFn)) (r : TestRunner) : TestRunner :=
  fold_left (fun r t => test (fst t) (snd t) r) ts r.

(** The accepted answers of [mockPuzzles]. *)
Definition pluralTest : list string := ["fruits"; "fruit"].
Definition regionalSpellingTest : list string := ["colours"; "colors"; "color"].
Definition synonymTest : list string :=
  ["programming languages"; "programming language"; "languages";
   "coding languages"].
Definition mixedCaseTest : list string := ["animals"; "animal"].
Definition whitespaceTest : list string := ["sports"].

Definition tab : string := String (ascii_of_N 9) "".
Definition newline : string := String (ascii_of_N 10) "".

(** The 23 tests of the file, in order. *)
Definition suite : list (string * TestFn) :=
  [ ("Should accept singular form when plural is expected",
     assert (Bool.eqb (validateAnswer "fruit" pluralTest) true)
            "Failed to accept singular 'fruit'");
    ("Should accept plural form when singular is expected",
     assert (Bool.eqb (validateAnswer "fruits" pluralTest) true)
            "Failed to accept plural 'fruits'");
    ("Should reject unrelated word",
     assert (Bool.eqb (validateAnswer "vegetables" pluralTest) false)
            "Should not accept 'vegetables' for fruits puzzle");
    ("Should accept British spelling 'colours'",
     assert (Bool.eqb (validateAnswer "colours" regionalSpellingTest) true)
            "Failed to accept British spelling 'colours'");
    ("Should accept American spelling 'colors'",
     assert (Bool.eqb (validateAnswer "colors" regionalSpellingTest) true)
            "Failed to accept American spelling 'colors'");
    ("Should accept singular American spelling 'color'",
     assert (Bool.eqb (validateAnswer "color" regionalSpellingTest) true)
            "Failed to accept singular 'color'");
    ("Should accept exact match 'programming languages'",
     assert (Bool.eqb (validateAnswer "programming languages" synonymTest) true)
            "Failed to accept 'programming languages'");
    ("Should accept singular variation 'programming language'",
     assert (Bool.eqb (validateAnswer "programming language" synonymTest) true)
            "Failed to accept 'programming language'");
    ("Should accept shortened synonym 'languages'",
     assert (Bool.eqb (validateAnswer "languages" synonymTest) true)
            "Failed to accept 'languages'");
    ("Should accept alternative phrasing 'coding languages'",
     assert (Bool.eqb (validateAnswer "coding languages" synonymTest) true)
            "Failed to accept 'coding languages'");
    ("Should accept UPPERCASE input",
     assert (Bool.eqb (validateAnswer "ANIMALS" mixedCaseTest) true)
            "Failed to accept uppercase 'ANIMALS'");
    ("Should accept MixedCase input",
     assert (Bool.eqb (validateAnswer "AnImAlS" mixedCaseTest) true)
            "Failed to accept mixed case 'AnImAlS'");
    ("Should accept lowercase input",
     assert (Bool.eqb (validateAnswer "animals" mixedCaseTest) true)
            "Failed to accept lowercase 'animals'");
    ("Should trim leading whitespace",
     assert (Bool.eqb (validateAnswer "   sports" whitespaceTest) true)
            "Failed to trim leading whitespace");
    ("Should trim trailing whitespace",
     assert (Bool.eqb (validateAnswer "sports   " whitespaceTest) true)
            "Failed to trim trailing whitespace");
    ("Should trim both leading and trailing whitespace",
     assert (Bool.eqb (validateAnswer "   sports   " whitespaceTest) true)
            "Failed to trim both sides");
    ("Should handle tabs and newlines",
     assert (Bool.eqb (validateAnswer (tab ++ newline ++ "sports" ++ newline ++ tab)
                                      whitespaceTest) true)
            "Failed to handle tabs and newlines");
    ("Should handle UPPERCASE with leading/trailing spaces",
     assert (Bool.eqb (validateAnswer "   FRUITS   " pluralTest) true)
            "Failed to handle uppercase with spaces");
    ("Should handle MixedCase with internal spaces (multi-word)",
     assert (Bool.eqb (validateAnswer "  PROGRAMMING LANGUAGES  " synonymTest) true)
            "Failed to handle mixed case multi-word with spaces");
    ("Should reject empty string",
     assert (Bool.eqb (validateAnswer "" pluralTest) false)
            "Should reject empty string");
    ("Should reject whitespace-only string",
     assert (Bool.eqb (validateAnswer "   " pluralTest) false)
            "Should reject whitespace-only string");
    ("Should reject partial matches",
     assert (Bool.eqb (validateAnswer "fruit" ["fruits only"]) false)
            "Should not accept partial match 'fruit' for 'fruits only'");
    ("Should reject similar but different words",
     assert (Bool.eqb (validateAnswer "sport" whitespaceTest) false)
            "Should not accept 'sport' when only 'sports' and 'sport' are accepted") ].

(** [const allPassed = runner.summary()] *)
Definition allPassed : bool := summary (runTests suite newRunner).

End ValidationTest.

(* ====================================================================== *)
(** * Notions used in the further statements *)
(* ====================================================================== *)

(** The value a call returned, when it returned. *)
Definition valueOf {A} (c : Completion A) : option A :=
  match c with Normal a _ => Some a | Abrupt _ _ => None end.

(** No upper-case letter in the string. *)
Fixpoint noUpper (s : string) : bool :=
  match s with
  | EmptyString => true
  | String c s' => negb (isUpper c) && noUpper s'
  end.








(** The clues [getRevealedClues] returns in a game state. *)
Definition shownClues (g : GameState) : list string :=
  match currentPuzzle g with
  | Some p => slice0 (revealedCluesCount g) (clues p)
  | None => []
  end.

(** The clue section of the page shows what the game state says. *)
Definition cluesInSync (w : World) : Prop :=
  cluesContainer (dom w) = shownClues (gameState w)
  /\ clueCount (dom w) = revealedCluesCount (gameState w).

(** The guess counter, when the page has one, and the [data-state]
    attribute show what the game state says. *)
Definition countersInSync (w : World) : Prop :=
  (forall n, guessCounter (dom w) = Some n -> n = length (guesses (gameState w)))
  /\ dataState (dom w) = uiState (gameState w).

(** Once the game is over, the result panel shows the outcome and the
    category of the current puzzle, and the results screen is on. *)
Definition resultShown (w : World) : Prop :=
  status (gameState w) <> playing ->
  exists p,
    currentPuzzle (gameState w) = Some p
    /\ resultCategory (dom w) = category p
    /\ resultStatus (dom w)
       = (if Status_eqb (status (gameState w)) won
          then ("You won!", true) else ("Game over", false))
    /\ uiState (gameState w) = uiResults.

(** Events of a session: everything but the loading of the page. *)
Definition isSessionEvent (ev : Event) : bool :=
  match ev with
  | EvInitApp _ _ => false
  | _ => true
  end.

(** Events that are guesses, typed or passed to [processGuess]. *)
Definition isGuessEvent (ev : Event) : bool :=
  match ev with
  | EvProcessGuess _ | EvSubmit _ => true
  | _ => false
  end.

(** The next-puzzle button pressed [k] times, in each copy. *)
Definition pressNext (now : Z) (k : nat) (w : World) : World :=
  Nat.iter k (fun w => worldOf (handleNextPuzzle now w)) w.
Definition pressNextLoop (now : Z) (k : nat) (w : World) : World :=
  Nat.iter k (fun w => worldOf (LoopBack.handleNextPuzzle now w)) w.

(* ====================================================================== *)
(** * The scenarios of the spec, by evaluation *)
(* ====================================================================== *)

Example normalizeInput_tabs :
  normalizeInput (String (ascii_of_N 9) (String (ascii_of_N 10) "sPoRtS  "))
  = "sports".
Proof. reflexivity. Qed.

Example validateAnswer_partial : validateAnswer "fruit" ["fruits only"] = false.
Proof. reflexivity. Qed.

Example scenario_A :
  let w := run [EvProcessGuess "Fruit"] demoWorld in
  cluesContainer (dom demoWorld) = ["apple"]
  /\ status (gameState w) = won /\ length (guesses (gameState w)) = 1%nat.
Proof. repeat split; reflexivity. Qed.

Example scenario_B :
  let w4 := run (repeat (EvProcessGuess "vegetables") 4) demoWorld in
  let w5 := step w4 (EvProcessGuess "vegetables") in
  revealedCluesCount (gameState w4) = 5 /\ status (gameState w4) = playing
  /\ status (gameState w5) = lost /\ length (guesses (gameState w5)) = 5%nat.
Proof. repeat split; reflexivity. Qed.

Example scenario_C :
  let w1 := step demoWorld (EvProcessGuess "   ") in
  let w2 := step w1 (EvProcessGuess "fruits") in
  length (guesses (gameState w1)) = 0%nat
  /\ status (gameState w2) = won /\ length (guesses (gameState w2)) = 1%nat.
Proof. repeat split; reflexivity. Qed.

(* ====================================================================== *)
(** * Facts about strings *)
(* ====================================================================== *)

(** A statement about one code unit is settled on the 256 code units. *)
Ltac each_code_unit c :=
  destruct c as [[] [] [] [] [] [] [] []]; vm_compute; reflexivity.

Lemma lowerChar_idem (c : ascii) : lowerChar (lowerChar c) = lowerChar c.
Proof. each_code_unit c. Qed.

Lemma isWhiteSpace_lowerChar (c : ascii) :
  isWhiteSpace (lowerChar c) = isWhiteSpace c.
Proof. each_code_unit c. Qed.

Lemma toLowerCase_idem (s : string) : toLowerCase (toLowerCase s) = toLowerCase s.
Proof.
  induction s as [|c s IH]; simpl; [reflexivity|].
  now rewrite lowerChar_idem, IH.
Qed.

Lemma toLowerCase_empty (s : string) : toLowerCase s = "" <-> s = "".
Proof. destruct s; simpl; split; intro H; try reflexivity; discriminate. Qed.

Lemma trimStart_toLowerCase (s : string) :
  trimStart (toLowerCase s) = toLowerCase (trimStart s).
Proof.
  induction s as [|c s IH]; simpl; [reflexivity|].
  rewrite isWhiteSpace_lowerChar. now destruct (isWhiteSpace c).
Qed.

Lemma trimEnd_toLowerCase (s : string) :
  trimEnd (toLowerCase s) = toLowerCase (trimEnd s).
Proof.
  induction s as [|c s IH]; simpl; [reflexivity|].
  rewrite IH, isWhiteSpace_lowerChar.
  destruct (trimEnd s); simpl; [now destruct (isWhiteSpace c) | reflexivity].
Qed.

Lemma trim_toLowerCase (s : string) : trim (toLowerCase s) = toLowerCase (trim s).
Proof. unfold trim. now rewrite trimStart_toLowerCase, trimEnd_toLowerCase. Qed.

Lemma trimStart_startsClean (s : string) : startsClean (trimStart s).
Proof.
  induction s as [|c s IH]; simpl; [exact I|].
  destruct (isWhiteSpace c) eqn:E; [exact IH | exact E].
Qed.

Lemma trimStart_clean (s : string) : startsClean s -> trimStart s = s.
Proof. destruct s as [|c s]; simpl; [reflexivity|]. now intros ->. Qed.

Lemma trimEnd_startsClean (s : string) : startsClean s -> startsClean (trimEnd s).
Proof.
  destruct s as [|c s]; simpl; [exact (fun H => H)|]. intros H.
  destruct (trimEnd s); [rewrite H|]; exact H.
Qed.

Lemma trimEnd_idem (s : string) : trimEnd (trimEnd s) = trimEnd s.
Proof.
  induction s as [|c s IH]; simpl; [reflexivity|].
  destruct (trimEnd s) as [|d r] eqn:E.
  - destruct (isWhiteSpace c) eqn:W; simpl; [reflexivity | now rewrite W].
  - simpl in IH |- *. now rewrite IH.
Qed.

Lemma trimStart_idem (s : string) : trimStart (trimStart s) = trimStart s.
Proof. apply trimStart_clean, trimStart_startsClean. Qed.

(** The two halves of [trim] commute. *)
Lemma trimStart_trimEnd (s : string) : trimStart (trimEnd s) = trimEnd (trimStart s).
Proof.
  induction s as [|c s IH]; [reflexivity|].
  destruct (isWhiteSpace c) eqn:W.
  - change (trimStart (String c s)) with (if isWhiteSpace c then trimStart s else String c s).
    rewrite W, <- IH. simpl.
    destruct (trimEnd s) as [|d r]; simpl; now rewrite W.
  - assert (C : startsClean (String c s)) by exact W.
    rewrite (trimStart_clean _ C).
    apply trimStart_clean, trimEnd_startsClean, C.
Qed.

Lemma trim_idem (s : string) : trim (trim s) = trim s.
Proof.
  unfold trim.
  now rewrite (trimStart_trimEnd (trimStart s)), trimStart_idem, trimEnd_idem.
Qed.

Lemma trimStart_app_ws (pre s : string) :
  allWhiteSpace pre = true -> trimStart (pre ++ s) = trimStart s.
Proof.
  induction pre as [|c pre IH]; simpl; [reflexivity|].
  intros H. apply andb_true_iff in H as [W H]. rewrite W. now apply IH.
Qed.

Lemma trimEnd_ws (post : string) : allWhiteSpace post = true -> trimEnd post = "".
Proof.
  induction post as [|c post IH]; simpl; [reflexivity|].
  intros H. apply andb_true_iff in H as [W H]. now rewrite (IH H), W.
Qed.

Lemma trimEnd_app_ws (s post : string) :
  allWhiteSpace post = true -> trimEnd (s ++ post) = trimEnd s.
Proof.
  intros H. induction s as [|c s IH]; simpl; [now apply trimEnd_ws|].
  now rewrite IH.
Qed.

Lemma trim_app_ws (pre s post : string) :
  allWhiteSpace pre = true -> allWhiteSpace post = true ->
  trim (pre ++ s ++ post) = trim s.
Proof.
  intros Hpre Hpost. unfold trim.
  rewrite (trimStart_app_ws pre _ Hpre), <- !trimStart_trimEnd.
  now rewrite (trimEnd_app_ws s post Hpost).
Qed.


Lemma truthy_false_iff (s : string) : truthy s = false <-> s = "".
Proof. destruct s; simpl; split; intro H; try reflexivity; discriminate. Qed.

(** The emptiness test of [processGuess] ([!guess.trim()]) is the test that
    the normalised guess is empty. *)
Lemma blank_iff_normalized_empty (guess : string) :
  truthy (trim guess) = false <-> normalizeInput guess = "".
Proof.
  unfold normalizeInput.
  now rewrite truthy_false_iff, trim_toLowerCase, toLowerCase_empty.
Qed.


Lemma validateAnswer_true_iff (playerInput : string) (accepted : list string) :
  validateAnswer playerInput accepted = true
  <-> exists a, In a accepted /\ normalizeInput a = normalizeInput playerInput.
Proof.
  unfold validateAnswer. rewrite existsb_exists.
  split; intros [a [Ha E]]; exists a; split; try exact Ha;
    now apply String.eqb_eq.
Qed.

Lemma normalizeInput_variant (a v : string) :
  variantOf a v -> normalizeInput v = normalizeInput a.
Proof.
  intros (pre & core & post & -> & Hpre & Hpost & Hcore).
  unfold normalizeInput.
  rewrite !trim_toLowerCase, trim_app_ws by assumption.
  now rewrite <- !trim_toLowerCase, Hcore.
Qed.

(* ====================================================================== *)
(** * The transitions, case by case *)
(* ====================================================================== *)

Ltac js_unfold :=
  unfold processGuess, completeGame, initGame, updateCluesDisplay,
         getRevealedClues, updateGuessCounter, clearInput, setUIState,
         displayFeedback, getCurrentPuzzle, currentPuzzle in *.

Ltac js_eval :=
  unfold bind, ret, throw, prop, getsGame, getsDom, modifyGame, modifyDom,
         consoleError in *;
  cbn -[validateAnswer trim findPuzzle Z.add Z.ltb Z.leb Nat.leb Nat.ltb
        slice0 skipn] in *.

Section Transitions.

Variable w : World.
Variable guess : string.

Let g := gameState w.
Let recorded := set_guesses (guesses g ++ [guess]) g.

(** An empty or white-space-only guess: only the feedback line changes. *)
Lemma processGuess_blank :
  truthy (trim guess) = false ->
  processGuess guess w
  = Normal tt (mkWorld g (set_feedback ("Please enter a guess", error) (dom w))
                       (console w)).
Proof.
  intros T. subst recorded g. destruct w as [g0 d k].
  js_unfold. js_eval. now rewrite T.
Qed.

(** A guess after the game ended: nothing happens. *)
Lemma processGuess_over :
  truthy (trim guess) = true -> status g <> playing ->
  processGuess guess w = Normal tt w.
Proof.
  intros T Hs. subst recorded g. destruct w as [g0 d k].
  js_unfold. js_eval. rewrite T. js_eval.
  destruct (status g0); js_eval; first [reflexivity | now elim Hs].
Qed.

(** The current puzzle is missing: the guess is recorded, then reading
    [puzzle.acceptedAnswers] raises. *)
Lemma processGuess_no_puzzle :
  truthy (trim guess) = true -> status g = playing ->
  currentPuzzle g = None ->
  threw (processGuess guess w) = true
  /\ gameState (worldOf (processGuess guess w)) = recorded.
Proof.
  intros T Hs Hp. subst recorded g. destruct w as [g0 d k].
  js_unfold. js_eval. rewrite T. js_eval. rewrite Hs. js_eval.
  rewrite Hp. js_eval. now split.
Qed.

Variable p : Puzzle.
Hypothesis Hblank : truthy (trim guess) = true.
Hypothesis Hplaying : status g = playing.
Hypothesis Hpuzzle : currentPuzzle g = Some p.

(** A correct guess. *)
Lemma processGuess_correct :
  validateAnswer guess (acceptedAnswers p) = true ->
  let c := processGuess guess w in
  threw c = false
  /\ gameState (worldOf c) = set_uiState uiResults (set_status won recorded)
  /\ cluesContainer (dom (worldOf c)) = cluesContainer (dom w)
  /\ clueCount (dom (worldOf c)) = clueCount (dom w)
  /\ feedback (dom (worldOf c)) = ("You won!", success)
  /\ resultStatus (dom (worldOf c)) = ("You won!", true)
  /\ resultCategory (dom (worldOf c)) = category p.
Proof.
  intros Hv. subst recorded g. destruct w as [g0 d k].
  js_unfold. js_eval. rewrite Hblank. js_eval. rewrite Hplaying. js_eval.
  rewrite Hpuzzle. js_eval. rewrite Hv. js_eval. rewrite Hpuzzle. js_eval.
  destruct (guessCounter d); repeat split; reflexivity.
Qed.

(** A wrong guess that is the fifth (or a later one). *)
Lemma processGuess_last_wrong :
  validateAnswer guess (acceptedAnswers p) = false ->
  (5 <= length (guesses g) + 1)%nat ->
  let c := processGuess guess w in
  threw c = false
  /\ gameState (worldOf c) = set_uiState uiResults (set_status lost recorded)
  /\ feedback (dom (worldOf c)) = ("Game over. Maximum guesses reached.", error)
  /\ resultStatus (dom (worldOf c)) = ("Game over", false)
  /\ resultCategory (dom (worldOf c)) = category p.
Proof.
  intros Hv Hn. subst recorded g. destruct w as [g0 d k].
  js_unfold. js_eval. rewrite Hblank. js_eval. rewrite Hplaying. js_eval.
  rewrite Hpuzzle. js_eval. rewrite Hv. js_eval.
  assert (L : (5 <=? length (guesses g0 ++ [guess]))%nat = true).
  { apply Nat.leb_le. rewrite length_app. simpl. lia. }
  rewrite L. js_eval. rewrite Hpuzzle. js_eval.
  destruct (guessCounter d); repeat split; reflexivity.
Qed.

(** A wrong guess with guesses left: one more clue, unless all five are
    already shown. *)
Lemma processGuess_wrong :
  validateAnswer guess (acceptedAnswers p) = false ->
  (length (guesses g) + 1 < 5)%nat ->
  let c := processGuess guess w in
  threw c = false
  /\ gameState (worldOf c)
     = (if revealedCluesCount g <? 5
        then set_revealedCluesCount (revealedCluesCount g + 1) recorded
        else recorded).
Proof.
  intros Hv Hn. subst recorded g. destruct w as [g0 d k].
  js_unfold. js_eval. rewrite Hblank. js_eval. rewrite Hplaying. js_eval.
  rewrite Hpuzzle. js_eval. rewrite Hv. js_eval.
  assert (L : (5 <=? length (guesses g0 ++ [guess]))%nat = false).
  { apply Nat.leb_gt. rewrite length_app. simpl. lia. }
  rewrite L. js_eval.
  destruct (revealedCluesCount g0 <? 5); js_eval; [rewrite Hpuzzle; js_eval|];
    now split.
Qed.

End Transitions.

(** [initGame] never raises in the first copy, and resets the session to the
    puzzle id it is given, whether or not the repository has that puzzle. *)
Lemma initGame_gameState (now puzzleId : Z) (w : World) :
  threw (initGame now puzzleId w) = false
  /\ gameState (worldOf (initGame now puzzleId w))
     = mkGameState (puzzles (gameState w)) puzzleId 1 [] playing uiPlaying (Some now).
Proof.
  destruct w as [g d k]. js_unfold. js_eval.
  destruct (findPuzzle puzzleId (puzzles g)); js_eval; now split.
Qed.

(** What [initGame] writes to the console: the not-found message when the
    repository has no puzzle with the id, nothing otherwise. *)
Lemma initGame_console (now puzzleId : Z) (w : World) :
  console (worldOf (initGame now puzzleId w))
  = (console w ++ match findPuzzle puzzleId (puzzles (gameState w)) with
                  | Some _ => []
                  | None => [NoPuzzleFoundForID puzzleId]
                  end)%list.
Proof.
  destruct w as [g d k]. js_unfold. js_eval.
  destruct (findPuzzle puzzleId (puzzles g)); js_eval;
    [now rewrite app_nil_r | reflexivity].
Qed.

(** The clues on the page after [initGame]. *)
Lemma initGame_clues (now puzzleId : Z) (w : World) :
  cluesContainer (dom (worldOf (initGame now puzzleId w)))
  = match findPuzzle puzzleId (puzzles (gameState w)) with
    | Some p => slice0 1 (clues p)
    | None => []
    end.
Proof.
  destruct w as [g d k]. js_unfold. js_eval.
  destruct (findPuzzle puzzleId (puzzles g)); js_eval;
    destruct (guessCounter d); reflexivity.
Qed.

Lemma not_blank (guess : string) :
  normalizeInput guess <> "" -> truthy (trim guess) = true.
Proof.
  intros H. destruct (truthy (trim guess)) eqn:T; [reflexivity|].
  now apply blank_iff_normalized_empty in T.
Qed.

(* ====================================================================== *)
(** * Answer matching *)
(* ====================================================================== *)

(** C9.  Normalisation is idempotent: lower-casing and trimming a string
    that was already lower-cased and trimmed returns it unchanged. *)
Theorem normalizeInput_idempotent (s : string) :
  normalizeInput (normalizeInput s) = normalizeInput s.
Proof.
  unfold normalizeInput.
  rewrite (trim_toLowerCase (trim (toLowerCase s))).
  now rewrite trim_idem, <- trim_toLowerCase, toLowerCase_idem.
Qed.

Example upper_case_with_tabs_accepted :
  validateAnswer (String (ascii_of_N 9) "FRUITS" ++ String (ascii_of_N 9) "")
                 (acceptedAnswers fruits) = true.
Proof. reflexivity. Qed.

(* ====================================================================== *)
(** * One guess *)
(* ====================================================================== *)

(** C3.  On a session in play, a non-empty guess judged correct sets the
    status to won at once, whatever the number of guesses made so far; the
    count of revealed clues stays as it was, no clue is added to the page,
    and the winning guess is appended to the recorded guesses. *)
Theorem correct_guess_wins (w : World) (guess : string) (p : Puzzle) :
  status (gameState w) = playing ->
  currentPuzzle (gameState w) = Some p ->
  normalizeInput guess <> "" ->
  validateAnswer guess (acceptedAnswers p) = true ->
  let c := processGuess guess w in
  threw c = false
  /\ status (gameState (worldOf c)) = won
  /\ revealedCluesCount (gameState (worldOf c)) = revealedCluesCount (gameState w)
  /\ cluesContainer (dom (worldOf c)) = cluesContainer (dom w)
  /\ guesses (gameState (worldOf c)) = (guesses (gameState w) ++ [guess])%list
  /\ resultCategory (dom (worldOf c)) = category p.
Proof.
  intros Hs Hp Hn Hv c.
  destruct (processGuess_correct w guess p (not_blank _ Hn) Hs Hp Hv)
    as (Ht & Hg & Hc & _ & _ & _ & Hr).
  subst c. rewrite Hg. repeat split; assumption.
Qed.

(** The theorem at work: a correct fifth guess, after four wrong ones. *)
Lemma correct_guess_wins_witness :
  let w := run (repeat (EvProcessGuess "vegetables") 4) demoWorld in
  let c := processGuess " Fruit " w in
  length (guesses (gameState w)) = 4%nat
  /\ threw c = false
  /\ status (gameState (worldOf c)) = won
  /\ revealedCluesCount (gameState (worldOf c)) = revealedCluesCount (gameState w)
  /\ cluesContainer (dom (worldOf c)) = cluesContainer (dom w)
  /\ guesses (gameState (worldOf c)) = (guesses (gameState w) ++ [" Fruit "])%list
  /\ resultCategory (dom (worldOf c)) = category fruits.
Proof.
  split; [reflexivity|].
  apply (correct_guess_wins
           (run (repeat (EvProcessGuess "vegetables") 4) demoWorld)
           " Fruit " fruits);
    [reflexivity | reflexivity | discriminate | reflexivity].
Defined.

(** C4.  A guess whose normalised form is empty (the empty string, or white
    space only) is rejected with the error feedback "Please enter a guess",
    and the whole game state is left as it was: the guess is not recorded,
    the status and the count of revealed clues are not changed.  This holds
    in every session, whatever its status. *)
Theorem blank_guess_rejected (w : World) (guess : string) :
  normalizeInput guess = "" ->
  let c := processGuess guess w in
  threw c = false
  /\ gameState (worldOf c) = gameState w
  /\ feedback (dom (worldOf c)) = ("Please enter a guess", error)
  /\ console (worldOf c) = console w.
Proof.
  intros Hn c. subst c.
  apply blank_iff_normalized_empty in Hn.
  rewrite (processGuess_blank w guess Hn). repeat split.
Qed.

Lemma blank_guess_rejected_witness :
  let c := processGuess "   " demoWorld in
  threw c = false
  /\ gameState (worldOf c) = gameState demoWorld
  /\ feedback (dom (worldOf c)) = ("Please enter a guess", error)
  /\ console (worldOf c) = console demoWorld.
Proof. apply (blank_guess_rejected demoWorld "   "). reflexivity. Defined.

Lemma blank_guess_examples :
  gameState (worldOf (processGuess "" demoWorld)) = gameState demoWorld
  /\ gameState (worldOf (processGuess "   " demoWorld)) = gameState demoWorld.
Proof. split; reflexivity. Qed.

(* ====================================================================== *)
(** * The game state after a guess, in closed form *)
(* ====================================================================== *)

Lemma Status_eqb_playing (s : Status) :
  Status_eqb s playing = true <-> s = playing.
Proof. destruct s; simpl; split; intro H; try reflexivity; discriminate. Qed.

Lemma processGuess_gameState (guess : string) (w : World) :
  gameState (worldOf (processGuess guess w)) = afterGuess guess (gameState w).
Proof.
  unfold afterGuess.
  destruct (truthy (trim guess)) eqn:T; cbn [negb].
  2:{ now rewrite (processGuess_blank w guess T). }
  destruct (Status_eqb (status (gameState w)) playing) eqn:S; cbn [negb].
  2:{ rewrite (processGuess_over w guess T); [reflexivity|].
      intros E. apply Status_eqb_playing in E. congruence. }
  apply Status_eqb_playing in S.
  destruct (currentPuzzle (gameState w)) as [p|] eqn:P.
  2:{ now destruct (processGuess_no_puzzle w guess T S P). }
  destruct (validateAnswer guess (acceptedAnswers p)) eqn:V.
  { now destruct (processGuess_correct w guess p T S P V) as (_ & -> & _). }
  cbn [guesses set_guesses]. rewrite length_app. cbn [length].
  destruct (5 <=? length (guesses (gameState w)) + 1)%nat eqn:L.
  - apply Nat.leb_le in L.
    now destruct (processGuess_last_wrong w guess p T S P V L) as (_ & -> & _).
  - apply Nat.leb_gt in L.
    now destruct (processGuess_wrong w guess p T S P V L) as (_ & ->).
Qed.

Lemma afterGuess_puzzle (guess : string) (g : GameState) :
  puzzles (afterGuess guess g) = puzzles g
  /\ currentPuzzleId (afterGuess guess g) = currentPuzzleId g.
Proof.
  unfold afterGuess.
  repeat match goal with
         | |- context [if ?b then _ else _] => destruct b
         | |- context [match ?o with Some _ => _ | None => _ end] => destruct o
         end; simpl; split; reflexivity.
Qed.

Lemma afterGuess_currentPuzzle (guess : string) (g : GameState) :
  currentPuzzle (afterGuess guess g) = currentPuzzle g.
Proof.
  unfold currentPuzzle. now destruct (afterGuess_puzzle guess g) as [-> ->].
Qed.

(** The game state after a run of guesses. *)
Lemma run_guesses_gameState (gs : list string) (w : World) :
  gameState (run (map EvProcessGuess gs) w)
  = fold_left (fun g guess => afterGuess guess g) gs (gameState w).
Proof.
  revert w. induction gs as [|guess gs IH]; intros w; [reflexivity|].
  simpl. rewrite IH. unfold step. simpl handler.
  now rewrite processGuess_gameState.
Qed.

Lemma afterGuess_wrong (p : Puzzle) (guess : string) (g : GameState) :
  wrongFor p guess -> status g = playing -> currentPuzzle g = Some p ->
  afterGuess guess g
  = let recorded := set_guesses (guesses g ++ [guess]) g in
    if (5 <=? length (guesses g) + 1)%nat then
      set_uiState uiResults (set_status lost recorded)
    else if revealedCluesCount g <? 5 then
      set_revealedCluesCount (revealedCluesCount g + 1) recorded
    else recorded.
Proof.
  intros [Hn Hv] Hs Hp. unfold afterGuess.
  rewrite (not_blank _ Hn), Hs, Hp, Hv.
  cbn [negb Status_eqb guesses set_guesses]. rewrite length_app.
  reflexivity.
Qed.

(* ====================================================================== *)
(** * Running out of guesses *)
(* ====================================================================== *)

Section WrongGuesses.

Variable p : Puzzle.

(** Wrong guesses while fewer than five are recorded: still in play. *)
Lemma wrong_guesses_playing (gs : list string) :
  forall g : GameState,
    status g = playing -> currentPuzzle g = Some p ->
    Forall (wrongFor p) gs ->
    (length (guesses g) + length gs < 5)%nat ->
    let g' := fold_left (fun g guess => afterGuess guess g) gs g in
    status g' = playing
    /\ guesses g' = (guesses g ++ gs)%list
    /\ currentPuzzle g' = Some p.
Proof.
  induction gs as [|guess gs IH]; intros g Hs Hp Hall Hlen; simpl.
  - now rewrite app_nil_r.
  - inversion Hall as [|? ? Hw Hrest]; subst. simpl in Hlen.
    pose proof (afterGuess_wrong p guess g Hw Hs Hp) as E.
    pose proof (afterGuess_currentPuzzle guess g) as Hp'.
    assert (L : (5 <=? length (guesses g) + 1)%nat = false)
      by (apply Nat.leb_gt; lia).
    cbv zeta in E. rewrite L in E.
    assert (Hs' : status (afterGuess guess g) = playing)
      by (rewrite E; destruct (revealedCluesCount g <? 5); exact Hs).
    assert (Hg' : guesses (afterGuess guess g) = (guesses g ++ [guess])%list)
      by (rewrite E; destruct (revealedCluesCount g <? 5); reflexivity).
    rewrite Hp in Hp'.
    destruct (IH (afterGuess guess g) Hs' Hp' Hrest) as (A & B & C).
    { rewrite Hg', length_app. simpl. lia. }
    repeat split; try assumption.
    rewrite B, Hg', <- app_assoc. reflexivity.
Qed.

(** Once the game is over, guesses that are not blank change nothing at
    all. *)
Lemma run_guesses_after_end (gs : list string) (w : World) :
  status (gameState w) <> playing ->
  Forall (fun guess => normalizeInput guess <> "") gs ->
  run (map EvProcessGuess gs) w = w.
Proof.
  intros Hs Hall. induction Hall as [|guess gs Hn _ IH]; [reflexivity|].
  assert (E : step w (EvProcessGuess guess) = w).
  { unfold step. simpl handler.
    now rewrite (processGuess_over w guess (not_blank _ Hn) Hs). }
  change (run (map EvProcessGuess (guess :: gs)) w)
    with (run (map EvProcessGuess gs) (step w (EvProcessGuess guess))).
  rewrite E. exact IH.
Qed.

(** Wrong guesses that bring the number of recorded guesses to five or
    more: the game is lost, and the result panel shows the loss and the
    category. *)
Lemma wrong_guesses_lose (gs : list string) :
  forall (guess : string) (w : World),
    status (gameState w) = playing ->
    currentPuzzle (gameState w) = Some p ->
    Forall (wrongFor p) (guess :: gs) ->
    (5 <= length (guesses (gameState w)) + S (length gs))%nat ->
    let w' := run (map EvProcessGuess (guess :: gs)) w in
    status (gameState w') = lost
    /\ (5 <= length (guesses (gameState w')))%nat
    /\ resultStatus (dom w') = ("Game over", false)
    /\ resultCategory (dom w') = category p.
Proof.
  induction gs as [|next gs IH]; intros guess w Hs Hp Hall Hlen;
    inversion Hall as [|? ? Hw Hrest]; subst;
    destruct (Nat.le_gt_cases 5 (length (guesses (gameState w)) + 1)) as [L|L].
  - destruct Hw as [Hn Hv].
    destruct (processGuess_last_wrong w guess p (not_blank _ Hn) Hs Hp Hv L)
      as (_ & Hg & _ & Hr & Hc).
    simpl. unfold step. simpl handler. rewrite Hg. cbn [status guesses set_uiState set_status set_guesses].
    rewrite length_app. simpl length. repeat split; assumption || lia.
  - simpl in Hlen. lia.
  - destruct Hw as [Hn Hv].
    destruct (processGuess_last_wrong w guess p (not_blank _ Hn) Hs Hp Hv L)
      as (_ & Hg & _ & Hr & Hc).
    change (run (map EvProcessGuess (guess :: next :: gs)) w)
      with (run (map EvProcessGuess (next :: gs)) (step w (EvProcessGuess guess))).
    rewrite run_guesses_after_end.
    + unfold step. simpl handler. rewrite Hg. cbn [status guesses set_uiState set_status set_guesses].
      rewrite length_app. simpl length. repeat split; assumption || lia.
    + unfold step. simpl handler. rewrite Hg. discriminate.
    + eapply Forall_impl; [|exact Hrest]. now intros a [Ha _].
  - change (run (map EvProcessGuess (guess :: next :: gs)) w)
      with (run (map EvProcessGuess (next :: gs)) (step w (EvProcessGuess guess))).
    assert (G : gameState (step w (EvProcessGuess guess))
                = afterGuess guess (gameState w))
      by apply processGuess_gameState.
    destruct (wrong_guesses_playing [guess] (gameState w) Hs Hp)
      as (A & B & C).
    { constructor; [exact Hw | constructor]. }
    { simpl. lia. }
    simpl in A, B, C. rewrite <- G in A, B, C.
    apply IH; try assumption.
    rewrite B, length_app. simpl in Hlen |- *. lia.
Qed.

End WrongGuesses.

(** C2.  On a session in play, whatever its count of revealed clues, five
    wrong non-empty guesses leave the status lost, with at least five
    guesses recorded, and the result panel reports the loss ("Game over")
    together with the puzzle's category.  On a session with no guess
    recorded yet the game is still in play after the first four, and the
    five guesses are the recorded ones. *)
Theorem five_wrong_guesses_lose (w : World) (p : Puzzle) (gs : list string) :
  status (gameState w) = playing ->
  currentPuzzle (gameState w) = Some p ->
  Forall (wrongFor p) gs ->
  length gs = 5%nat ->
  let w' := run (map EvProcessGuess gs) w in
  status (gameState w') = lost
  /\ (5 <= length (guesses (gameState w')))%nat
  /\ resultStatus (dom w') = ("Game over", false)
  /\ resultCategory (dom w') = category p
  /\ (guesses (gameState w) = [] ->
      status (gameState (run (map EvProcessGuess (firstn 4 gs)) w)) = playing
      /\ guesses (gameState w') = gs).
Proof.
  intros Hs Hp Hall Hlen w'.
  destruct gs as [|g1 gs]; [discriminate|].
  destruct (wrong_guesses_lose p gs g1 w Hs Hp Hall) as (A & B & C & D).
  { simpl in Hlen. lia. }
  do 4 (split; [assumption|]).
  intros Hfresh.
  destruct gs as [|g2 [|g3 [|g4 [|g5 [|]]]]]; try discriminate.
  assert (Hin : forall x, In x [g1; g2; g3; g4; g5] -> wrongFor p x)
    by now apply Forall_forall.
  assert (Hfour : Forall (wrongFor p) [g1; g2; g3; g4])
    by (repeat constructor; apply Hin; simpl; tauto).
  assert (Hfifth : wrongFor p g5) by (apply Hin; simpl; tauto).
  destruct (wrong_guesses_playing p [g1; g2; g3; g4] (gameState w) Hs Hp Hfour)
    as (A' & B' & C').
  { rewrite Hfresh. simpl. lia. }
  cbv zeta in A', B', C'.
  split.
  - change (firstn 4 [g1; g2; g3; g4; g5]) with [g1; g2; g3; g4].
    rewrite run_guesses_gameState. exact A'.
  - subst w'. rewrite run_guesses_gameState.
    change (fold_left (fun g guess => afterGuess guess g)
                      [g1; g2; g3; g4; g5] (gameState w))
      with (afterGuess g5 (fold_left (fun g guess => afterGuess guess g)
                                     [g1; g2; g3; g4] (gameState w))).
    rewrite (afterGuess_wrong p g5 _ Hfifth A' C').
    cbv zeta. rewrite B', Hfresh. reflexivity.
Qed.

(** The theorem at work: scenario B, five times "vegetables" on the fruits
    puzzle. *)
Lemma five_wrong_guesses_lose_witness :
  let gs := repeat "vegetables" 5 in
  let w' := run (map EvProcessGuess gs) demoWorld in
  status (gameState w') = lost
  /\ (5 <= length (guesses (gameState w')))%nat
  /\ resultStatus (dom w') = ("Game over", false)
  /\ resultCategory (dom w') = category fruits
  /\ (guesses (gameState demoWorld) = [] ->
      status (gameState (run (map EvProcessGuess (firstn 4 gs)) demoWorld)) = playing
      /\ guesses (gameState w') = gs).
Proof.
  apply (five_wrong_guesses_lose demoWorld fruits (repeat "vegetables" 5));
    [reflexivity | reflexivity | | reflexivity].
  repeat constructor; discriminate.
Defined.

(* ====================================================================== *)
(** * Guesses after the game ended *)
(* ====================================================================== *)

(** The emptiness test of [processGuess] comes before its status test, so a
    blank guess is answered with the error feedback after the game ended
    too: here after a win. *)
Lemma blank_guess_after_end_reports_error :
  let w := step demoWorld (EvProcessGuess "fruit") in
  status (gameState w) = won
  /\ feedback (dom w) = ("You won!", success)
  /\ feedback (dom (worldOf (processGuess "   " w))) = ("Please enter a guess", error).
Proof. repeat split; reflexivity. Qed.

(** C6, amended.  After the game ended (status won or lost) no guess
    changes the game state and no guess is recorded.  A guess that is not
    blank is ignored silently: the call returns with the world exactly as it
    was.  A blank guess is still answered with the error feedback "Please
    enter a guess", as in any other state. *)
Theorem guess_after_end_ignored (w : World) (input : string) :
  status (gameState w) <> playing ->
  let c := processGuess input w in
  threw c = false
  /\ gameState (worldOf c) = gameState w
  /\ (normalizeInput input <> "" -> c = Normal tt w)
  /\ (normalizeInput input = "" ->
      feedback (dom (worldOf c)) = ("Please enter a guess", error)).
Proof.
  intros Hs c. subst c.
  destruct (truthy (trim input)) eqn:T.
  - rewrite (processGuess_over w input T Hs). repeat split.
    intros Hn. apply blank_iff_normalized_empty in Hn. congruence.
  - rewrite (processGuess_blank w input T). repeat split.
    intros Hn. elim Hn. now apply blank_iff_normalized_empty.
Qed.

Lemma guess_after_end_ignored_witness :
  let w := step demoWorld (EvProcessGuess "fruit") in
  let c := processGuess "fruits" w in
  threw c = false
  /\ gameState (worldOf c) = gameState w
  /\ (normalizeInput "fruits" <> "" -> c = Normal tt w)
  /\ (normalizeInput "fruits" = "" ->
      feedback (dom (worldOf c)) = ("Please enter a guess", error)).
Proof.
  apply (guess_after_end_ignored (step demoWorld (EvProcessGuess "fruit")) "fruits").
  discriminate.
Defined.

(* ====================================================================== *)
(** * Starting a puzzle that is not in the repository *)
(* ====================================================================== *)

(** [initGame] does not look the puzzle up before it resets the session:
    started on id 999 in the middle of a game on puzzle 1, it returns
    normally and the session is the reset one on id 999. *)
Lemma initGame_missing_puzzle_mutates :
  let w := step demoWorld (EvProcessGuess "vegetables") in
  findPuzzle 999 (puzzles (gameState w)) = None
  /\ session w = (1, 2, ["vegetables"], playing)
  /\ threw (initGame 0 999 w) = false
  /\ session (worldOf (initGame 0 999 w)) = (999, 1, [], playing).
Proof. repeat split; reflexivity. Qed.

(** C5, amended.  Started on an id that is not in the repository,
    [initGame] raises nothing: it resets the session to that id with one
    revealed clue, no guesses and status playing, leaves the repository as it
    was, shows no clue, and reports the missing puzzle only with a
    [console.error] message. *)
Theorem initGame_missing_puzzle_resets (now puzzleId : Z) (w : World) :
  findPuzzle puzzleId (puzzles (gameState w)) = None ->
  let c := initGame now puzzleId w in
  threw c = false
  /\ session (worldOf c) = (puzzleId, 1, [], playing)
  /\ puzzles (gameState (worldOf c)) = puzzles (gameState w)
  /\ console (worldOf c) = (console w ++ [NoPuzzleFoundForID puzzleId])%list
  /\ cluesContainer (dom (worldOf c)) = [].
Proof.
  intros Hnone c. subst c.
  destruct (initGame_gameState now puzzleId w) as [Ht Hg].
  pose proof (initGame_console now puzzleId w) as Hc.
  pose proof (initGame_clues now puzzleId w) as Hd.
  rewrite Hnone in Hc, Hd. unfold session. rewrite Hg.
  repeat split; assumption.
Qed.

Lemma initGame_missing_puzzle_resets_witness :
  let c := initGame 7 999 demoWorld in
  threw c = false
  /\ session (worldOf c) = (999, 1, [], playing)
  /\ puzzles (gameState (worldOf c)) = puzzles (gameState demoWorld)
  /\ console (worldOf c) = (console demoWorld ++ [NoPuzzleFoundForID 999])%list
  /\ cluesContainer (dom (worldOf c)) = [].
Proof. apply (initGame_missing_puzzle_resets 7 999 demoWorld). reflexivity. Defined.

(* ====================================================================== *)
(** * The game state after the other handlers *)
(* ====================================================================== *)

Ltac js_handler :=
  unfold bind, ret, getsGame, getsDom, modifyGame, modifyDom, consoleError in *;
  cbn -[initGame LoopBack.initGame processGuess Z.add Z.leb Nat.ltb] in *.

Lemma handleNextPuzzle_gameState (now : Z) (w : World) :
  gameState (worldOf (handleNextPuzzle now w))
  = let g := gameState w in
    if currentPuzzleId g + 1 <=? Z.of_nat (length (puzzles g))
    then started now (currentPuzzleId g + 1) (puzzles g)
    else set_uiState uiCompleted g.
Proof.
  unfold handleNextPuzzle, setUIState, createConfetti. js_handler.
  destruct (currentPuzzleId (gameState w) + 1 <=? _).
  - apply initGame_gameState.
  - reflexivity.
Qed.

Lemma handleReplay_gameState (now : Z) (w : World) :
  gameState (worldOf (handleReplay now w))
  = started now (currentPuzzleId (gameState w)) (puzzles (gameState w)).
Proof. unfold handleReplay. js_handler. apply initGame_gameState. Qed.

Lemma initApp_gameState (now : Z) (fetched : option (list Puzzle)) (w : World) :
  gameState (worldOf (initApp now (responseOf fetched) w))
  = let g := match fetched with
             | Some ps => set_puzzles ps (gameState w)
             | None => gameState w
             end in
    if (0 <? length (puzzles g))%nat then started now 1 (puzzles g) else g.
Proof.
  unfold initApp, loadPuzzles, responseOf, displayFeedback.
  destruct fetched as [ps|]; js_handler.
  - destruct (0 <? length ps)%nat; [|reflexivity].
    now destruct (initGame_gameState now 1
                    (mkWorld (set_puzzles ps (gameState w)) (dom w) (console w))).
  - destruct (0 <? length (puzzles (gameState w)))%nat; [|reflexivity].
    match goal with
    | |- gameState (worldOf (initGame _ _ ?w0)) = _ =>
        now destruct (initGame_gameState now 1 w0)
    end.
Qed.

Lemma submit_gameState (typed : string) (w : World) :
  gameState (step w (EvSubmit typed)) = afterGuess typed (gameState w).
Proof.
  unfold step, handler, handleFormSubmit. js_handler.
  now rewrite processGuess_gameState.
Qed.

Lemma step_gameState (ev : Event) (w : World) :
  gameState (step w ev) = afterEvent ev (gameState w).
Proof.
  destruct ev as [now puzzleId|guess|typed|now|now|now fetched].
  - apply initGame_gameState.
  - apply processGuess_gameState.
  - apply submit_gameState.
  - apply handleNextPuzzle_gameState.
  - apply handleReplay_gameState.
  - apply initApp_gameState.
Qed.

Lemma run_gameState (evs : list Event) (w : World) :
  gameState (run evs w)
  = fold_left (fun g ev => afterEvent ev g) evs (gameState w).
Proof.
  revert w. induction evs as [|ev evs IH]; intros w; [reflexivity|].
  simpl. now rewrite IH, step_gameState.
Qed.

(* ====================================================================== *)
(** * The count of revealed clues *)
(* ====================================================================== *)

(** A guess leaves the count as it is or, when it is below 5, adds one. *)
Lemma afterGuess_revealedCluesCount (guess : string) (g : GameState) :
  revealedCluesCount (afterGuess guess g) = revealedCluesCount g
  \/ (revealedCluesCount g < 5
      /\ revealedCluesCount (afterGuess guess g) = revealedCluesCount g + 1).
Proof.
  unfold afterGuess.
  destruct (negb (truthy (trim guess))); [now left|].
  destruct (negb (Status_eqb (status g) playing)); [now left|].
  destruct (currentPuzzle g) as [p|]; [|now left].
  destruct (validateAnswer guess (acceptedAnswers p)); [now left|].
  destruct (5 <=? _)%nat; [now left|].
  destruct (revealedCluesCount g <? 5) eqn:L; [|now left].
  right. apply Z.ltb_lt in L. now split.
Qed.

(** An event leaves the count as it is, adds one to a count below 5, or is
    a full reset: a session just started. *)
Lemma afterEvent_revealedCluesCount (ev : Event) (g : GameState) :
  revealedCluesCount (afterEvent ev g) = revealedCluesCount g
  \/ (revealedCluesCount g < 5
      /\ revealedCluesCount (afterEvent ev g) = revealedCluesCount g + 1)
  \/ (exists now puzzleId ps, afterEvent ev g = started now puzzleId ps).
Proof.
  destruct ev as [now puzzleId|guess|typed|now|now|now fetched]; simpl.
  - right; right. now exists now, puzzleId, (puzzles g).
  - destruct (afterGuess_revealedCluesCount guess g); tauto.
  - destruct (afterGuess_revealedCluesCount typed g); tauto.
  - destruct (currentPuzzleId g + 1 <=? _); [|now left].
    right; right. now exists now, (currentPuzzleId g + 1), (puzzles g).
  - right; right. now exists now, (currentPuzzleId g), (puzzles g).
  - destruct fetched as [ps|]; simpl.
    + destruct ps as [|p0 ps']; [now left|].
      right; right. now exists now, 1, (p0 :: ps').
    + destruct (puzzles g) as [|p0 ps'] eqn:E; [now left|].
      right; right. now exists now, 1, (p0 :: ps').
Qed.

(** C7.  The count of revealed clues is an integer from 1 to 5 in every
    state the game can reach from its initial state, by any events.
    [initGame] sets it to 1; a guess leaves it unchanged or adds exactly one,
    and only to a count strictly below 5; and no event lowers it, except a
    full reset of the session by [initGame]. *)
Theorem revealedCluesCount_bounds :
  (forall (d : Dom) (k : list ConsoleError) (evs : list Event),
      let w := run evs (mkWorld initialGameState d k) in
      1 <= revealedCluesCount (gameState w) <= 5)
  /\ (forall (now puzzleId : Z) (w : World),
         revealedCluesCount (gameState (worldOf (initGame now puzzleId w))) = 1)
  /\ (forall (guess : string) (w : World),
         let r := revealedCluesCount (gameState w) in
         let r' := revealedCluesCount (gameState (worldOf (processGuess guess w))) in
         r' = r \/ (r < 5 /\ r' = r + 1))
  /\ (forall (ev : Event) (w : World),
         revealedCluesCount (gameState w) <= revealedCluesCount (gameState (step w ev))
         \/ exists now puzzleId,
             gameState (step w ev)
             = started now puzzleId (puzzles (gameState (step w ev)))).
Proof.
  split; [|split; [|split]].
  - intros d k evs w. subst w. rewrite run_gameState. simpl gameState.
    assert (Inv : 1 <= revealedCluesCount initialGameState <= 5) by (simpl; lia).
    revert Inv. generalize initialGameState.
    induction evs as [|ev evs IH]; intros g Inv; [exact Inv|].
    simpl. apply IH.
    destruct (afterEvent_revealedCluesCount ev g)
      as [E | [[L E] | (now & puzzleId & ps & E)]]; rewrite E; simpl; lia.
  - intros now puzzleId w.
    now destruct (initGame_gameState now puzzleId w) as [_ ->].
  - intros guess w r r'. subst r r'. rewrite processGuess_gameState.
    apply afterGuess_revealedCluesCount.
  - intros ev w. rewrite step_gameState.
    destruct (afterEvent_revealedCluesCount ev (gameState w))
      as [E | [[L E] | (now & puzzleId & ps & E)]].
    + left. lia.
    + left. lia.
    + right. exists now, puzzleId. rewrite E. reflexivity.
Qed.

(* ====================================================================== *)
(** * Clues and guesses move together *)
(* ====================================================================== *)

Lemma afterGuess_inStep (guess : string) (g : GameState) :
  currentPuzzle g <> None -> inStep g -> inStep (afterGuess guess g).
Proof.
  intros Hp Hin. unfold afterGuess.
  destruct (negb (truthy (trim guess))); [exact Hin|].
  destruct (Status_eqb (status g) playing) eqn:S; cbn [negb]; [|exact Hin].
  apply Status_eqb_playing in S. destruct (Hin S) as [Hr Hl].
  destruct (currentPuzzle g) as [p|]; [|congruence].
  destruct (validateAnswer guess (acceptedAnswers p)); [discriminate|].
  cbn [guesses set_guesses]. rewrite length_app. cbn [length].
  destruct (5 <=? length (guesses g) + 1)%nat eqn:L; [discriminate|].
  apply Nat.leb_gt in L.
  assert (R : (revealedCluesCount g <? 5) = true) by (apply Z.ltb_lt; lia).
  rewrite R. intros _. cbn. rewrite length_app. cbn [length]. lia.
Qed.

Lemma guesses_inStep (gs : list string) :
  forall g : GameState,
    currentPuzzle g <> None -> inStep g ->
    inStep (fold_left (fun g guess => afterGuess guess g) gs g).
Proof.
  induction gs as [|guess gs IH]; intros g Hp Hin; [exact Hin|].
  simpl. apply IH.
  - now rewrite afterGuess_currentPuzzle.
  - now apply afterGuess_inStep.
Qed.

(** C10, amended.  In every state reached from [initGame] on a puzzle of
    the repository by any sequence of guesses, a status of playing means that
    the count of revealed clues is the number of recorded guesses plus one,
    and that at most four guesses are recorded. *)
Theorem playing_clues_track_guesses
        (now puzzleId : Z) (w : World) (p : Puzzle) (gs : list string) :
  findPuzzle puzzleId (puzzles (gameState w)) = Some p ->
  let w' := run (map EvProcessGuess gs) (worldOf (initGame now puzzleId w)) in
  status (gameState w') = playing ->
  revealedCluesCount (gameState w') = Z.of_nat (length (guesses (gameState w'))) + 1
  /\ (length (guesses (gameState w')) <= 4)%nat.
Proof.
  intros Hp w'. subst w'. rewrite run_guesses_gameState.
  destruct (initGame_gameState now puzzleId w) as [_ ->].
  apply guesses_inStep.
  - unfold currentPuzzle. simpl. congruence.
  - intros _. simpl. split; [reflexivity | lia].
Qed.

(** The theorem at work: three wrong guesses on the fruits puzzle, then a
    blank one. *)
Lemma playing_clues_track_guesses_witness :
  let w' := run (map EvProcessGuess ["vegetables"; "nuts"; " "; "trees"])
                (worldOf (initGame 0 1 demoWorld)) in
  status (gameState w') = playing
  /\ revealedCluesCount (gameState w') = Z.of_nat (length (guesses (gameState w'))) + 1
  /\ (length (guesses (gameState w')) <= 4)%nat.
Proof.
  split; [reflexivity|].
  apply (playing_clues_track_guesses 0 1 demoWorld fruits
           ["vegetables"; "nuts"; " "; "trees"]); reflexivity.
Defined.

(** Started on an id that is not in the repository, the session breaks the
    relation at the first guess: [processGuess] records the guess, then
    raises on [puzzle.acceptedAnswers], and the session stays in play with
    one clue revealed and one guess recorded. *)
Lemma guess_on_missing_puzzle :
  let w := run [EvProcessGuess "fruits"] (worldOf (initGame 0 999 demoWorld)) in
  threw (processGuess "fruits" (worldOf (initGame 0 999 demoWorld))) = true
  /\ status (gameState w) = playing
  /\ revealedCluesCount (gameState w) = 1
  /\ length (guesses (gameState w)) = 1%nat
  /\ revealedCluesCount (gameState w) <> Z.of_nat (length (guesses (gameState w))) + 1.
Proof. repeat split; try reflexivity. discriminate. Qed.

(* ====================================================================== *)
(** * The next puzzle *)
(* ====================================================================== *)

Lemma findPuzzle_found_iff (k : Z) (ps : list Puzzle) :
  findPuzzle k ps <> None <-> In k (map id ps).
Proof.
  unfold findPuzzle. induction ps as [|q ps IH]; simpl.
  - split; [intros H; now elim H | tauto].
  - destruct (id q =? k) eqn:E.
    + apply Z.eqb_eq in E. split; [now left | discriminate].
    + apply Z.eqb_neq in E. rewrite IH. split; [now right | tauto].
Qed.

Lemma dense_found_iff (k : Z) (ps : list Puzzle) :
  dense ps -> (findPuzzle k ps <> None <-> 1 <= k <= Z.of_nat (length ps)).
Proof.
  intros D. rewrite findPuzzle_found_iff, D, in_map_iff. split.
  - intros (i & <- & Hi). apply in_seq in Hi. lia.
  - intros Hk. exists (Z.to_nat k). split; [lia|]. apply in_seq. lia.
Qed.

(** The second copy's [initGame] resets the session fields before anything
    can raise; it raises (on [puzzle.clues]) only when the puzzle is
    missing. *)
Lemma LoopBack_initGame_session (now puzzleId : Z) (w : World) :
  session (worldOf (LoopBack.initGame now puzzleId w)) = (puzzleId, 1, [], playing)
  /\ (findPuzzle puzzleId (puzzles (gameState w)) <> None ->
      threw (LoopBack.initGame now puzzleId w) = false).
Proof.
  destruct w as [g d k].
  unfold LoopBack.initGame, LoopBack.updateCluesDisplay, LoopBack.getRevealedClues.
  js_unfold. js_eval.
  destruct (findPuzzle puzzleId (puzzles g)); js_eval; split;
    first [reflexivity | intros H; now elim H].
Qed.

Lemma LoopBack_handleNextPuzzle_session (now : Z) (w : World) :
  session (worldOf (LoopBack.handleNextPuzzle now w))
  = let g := gameState w in
    (if currentPuzzleId g + 1 <=? Z.of_nat (length (puzzles g))
     then currentPuzzleId g + 1 else 1, 1, [], playing).
Proof.
  unfold LoopBack.handleNextPuzzle. js_handler.
  destruct (currentPuzzleId (gameState w) + 1 <=? _);
    apply LoopBack_initGame_session.
Qed.

(** Where the code leaves the policy of the spec: the first copy at the last
    puzzle starts no game (the session stays on puzzle 2, the page shows the
    completion screen), and the second copy, on a repository with the ids 10
    and 20, goes from the initial id 1 to the id 2, which no puzzle has. *)
Lemma handleNextPuzzle_not_spec_policy :
  let w := step demoWorld (EvInitGame 0 2) in
  let w' := worldOf (handleNextPuzzle 0 w) in
  let sparse := [mkPuzzle 10 "fruits" [] ["fruits"];
                 mkPuzzle 20 "colours" [] ["colours"]] in
  let v := mkWorld (set_puzzles sparse initialGameState) blankDom [] in
  let v' := worldOf (LoopBack.handleNextPuzzle 0 v) in
  (nextPuzzleId_spec (puzzles (gameState w)) (currentPuzzleId (gameState w)) = Some 1
   /\ currentPuzzleId (gameState w') = 2
   /\ session w' = session w
   /\ uiState (gameState w') = uiCompleted)
  /\ (nextPuzzleId_spec sparse (currentPuzzleId (gameState v)) = Some 10
      /\ currentPuzzleId (gameState v') = 2
      /\ findPuzzle 2 sparse = None).
Proof. repeat split; reflexivity. Qed.

(** C8, amended.  [handleNextPuzzle] compares [currentPuzzleId + 1] with the
    number of puzzles; it does not look the id up.  When the id is at most
    that number, both copies of the code start the puzzle with that id.
    Otherwise the second copy starts puzzle 1, and the first copy starts no
    puzzle: the session stays as it is and the page shows the completion
    screen.  When the ids of the repository are 1..n with n at least 1 and
    the current id is not negative, the id the second copy starts is the one
    the spec's policy names, and a puzzle with that id exists. *)
Theorem handleNextPuzzle_policy (now : Z) (w : World) :
  let g := gameState w in
  let cur := currentPuzzleId g in
  let n := Z.of_nat (length (puzzles g)) in
  let first := worldOf (handleNextPuzzle now w) in
  let second := worldOf (LoopBack.handleNextPuzzle now w) in
  (cur + 1 <= n ->
   session first = (cur + 1, 1, [], playing)
   /\ session second = (cur + 1, 1, [], playing))
  /\ (n < cur + 1 ->
      session first = session w
      /\ uiState (gameState first) = uiCompleted
      /\ session second = (1, 1, [], playing))
  /\ (dense (puzzles g) -> puzzles g <> [] -> 0 <= cur ->
      nextPuzzleId_spec (puzzles g) cur = Some (currentPuzzleId (gameState second))
      /\ findPuzzle (currentPuzzleId (gameState second)) (puzzles g) <> None).
Proof.
  intros g cur n first second.
  assert (E1 : gameState first
               = if cur + 1 <=? n then started now (cur + 1) (puzzles g)
                 else set_uiState uiCompleted g)
    by apply handleNextPuzzle_gameState.
  assert (E2 : session second = (if cur + 1 <=? n then cur + 1 else 1, 1, [], playing))
    by apply LoopBack_handleNextPuzzle_session.
  split; [|split].
  - intros L. apply Z.leb_le in L. rewrite L in E1, E2.
    unfold session at 1. rewrite E1. now split.
  - intros L. apply Z.leb_gt in L. rewrite L in E1, E2.
    unfold session at 1. rewrite E1. now repeat split.
  - intros D Hne Hcur.
    assert (E3 : currentPuzzleId (gameState second)
                 = if cur + 1 <=? n then cur + 1 else 1)
      by (unfold session in E2; now inversion E2).
    rewrite E3.
    assert (Hn : 1 <= n).
    { subst n. destruct (puzzles g); [congruence | simpl; lia]. }
    assert (Hfirst : exists q rest, puzzles g = q :: rest /\ id q = 1).
    { unfold dense in D. destruct (puzzles g) as [|q rest]; [congruence|].
      exists q, rest. split; [reflexivity|]. simpl in D. now inversion D. }
    unfold nextPuzzleId_spec.
    destruct (cur + 1 <=? n) eqn:L.
    + apply Z.leb_le in L.
      assert (F : findPuzzle (cur + 1) (puzzles g) <> None)
        by (apply (dense_found_iff _ _ D); fold n; lia).
      split; [|exact F].
      destruct (findPuzzle (cur + 1) (puzzles g)); congruence.
    + apply Z.leb_gt in L.
      assert (F : findPuzzle (cur + 1) (puzzles g) = None).
      { destruct (findPuzzle (cur + 1) (puzzles g)) eqn:E; [|reflexivity].
        assert (F : findPuzzle (cur + 1) (puzzles g) <> None) by congruence.
        apply (dense_found_iff _ _ D) in F. fold n in F. lia. }
      rewrite F. destruct Hfirst as (q & rest & Hps & Hq). rewrite Hps.
      split; [now rewrite Hq|].
      rewrite <- Hps. apply (dense_found_iff _ _ D). fold n. lia.
Qed.

(** The two copies on the two-puzzle repository: from puzzle 1 both go to
    puzzle 2; from puzzle 2 the second copy goes back to puzzle 1.  *)
Example next_puzzle_on_demo :
  let w2 := worldOf (handleNextPuzzle 0 demoWorld) in
  currentPuzzleId (gameState w2) = 2
  /\ currentPuzzleId (gameState (worldOf (LoopBack.handleNextPuzzle 0 demoWorld))) = 2
  /\ currentPuzzleId (gameState (worldOf (LoopBack.handleNextPuzzle 0 w2))) = 1
  /\ threw (LoopBack.handleNextPuzzle 0 w2) = false.
Proof. repeat split; reflexivity. Qed.

(* ====================================================================== *)
(** * More on normalisation and matching *)
(* ====================================================================== *)

Lemma normalizeInput_twice (s : string) :
  normalizeInput (normalizeInput s) = normalizeInput s.
Proof.
  unfold normalizeInput.
  now rewrite <- trim_toLowerCase, toLowerCase_idem, trim_idem.
Qed.

Lemma lowerChar_fixed (c : ascii) : Ascii.eqb (lowerChar c) c = negb (isUpper c).
Proof. each_code_unit c. Qed.

Lemma isUpper_lowerChar (c : ascii) : isUpper (lowerChar c) = false.
Proof. each_code_unit c. Qed.

Lemma toLowerCase_fixed (s : string) : toLowerCase s = s <-> noUpper s = true.
Proof.
  induction s as [|c s IH]; simpl; [tauto|].
  rewrite andb_true_iff, <- IH, <- lowerChar_fixed, Ascii.eqb_eq.
  split; [intros E; injection E as E1 E2; now split
         | intros [E1 E2]; now rewrite E1, E2].
Qed.

Lemma noUpper_toLowerCase (s : string) : noUpper (toLowerCase s) = true.
Proof. apply toLowerCase_fixed, toLowerCase_idem. Qed.







(** What [trim] removes is white space, at the two ends only. *)
Lemma trimStart_decompose (s : string) :
  exists pre, s = pre ++ trimStart s /\ allWhiteSpace pre = true.
Proof.
  induction s as [|c s (pre & E & W)]; [now exists ""|].
  simpl. destruct (isWhiteSpace c) eqn:Wc.
  - exists (String c pre). simpl. rewrite Wc, W. split; [congruence | reflexivity].
  - now exists "".
Qed.

Lemma trimEnd_decompose (s : string) :
  exists post, s = trimEnd s ++ post /\ allWhiteSpace post = true.
Proof.
  induction s as [|c s (post & E & W)]; [now exists ""|].
  simpl. destruct (trimEnd s) as [|d r] eqn:T.
  - simpl in E. destruct (isWhiteSpace c) eqn:Wc.
    + exists (String c post). simpl. rewrite Wc, W. split; [congruence | reflexivity].
    + exists post. simpl. split; [congruence | exact W].
  - exists post. split; [|exact W]. simpl in *. congruence.
Qed.

Lemma trim_decompose (s : string) :
  exists pre post,
    s = pre ++ trim s ++ post
    /\ allWhiteSpace pre = true /\ allWhiteSpace post = true.
Proof.
  destruct (trimStart_decompose s) as (pre & E1 & W1).
  destruct (trimEnd_decompose (trimStart s)) as (post & E2 & W2).
  exists pre, post. unfold trim. rewrite <- E2. now repeat split.
Qed.












(** X2.  The inputs [validateAnswer] accepts are exactly the casing and
    outer-white-space variants of the trimmed accepted answers: white space,
    then a string equal to the trimmed answer up to letter case, then white
    space.  Nothing inside the answer may differ. *)
Theorem validateAnswer_accepts_variants_only (input : string) (accepted : list string) :
  validateAnswer input accepted = true
  <-> exists a, In a accepted /\ variantOf (trim a) input.
Proof.
  rewrite validateAnswer_true_iff.
  assert (N : forall a, normalizeInput (trim a) = normalizeInput a).
  { intros a. unfold normalizeInput. now rewrite !trim_toLowerCase, trim_idem. }
  split; intros (a & Ha & H); exists a; (split; [exact Ha|]).
  - destruct (trim_decompose input) as (pre & post & E & W1 & W2).
    exists pre, (trim input), post. repeat split; try assumption.
    rewrite <- !trim_toLowerCase. exact (eq_sym H).
  - rewrite (normalizeInput_variant _ _ H). symmetry. apply N.
Qed.

(** X3.  [validateAnswer] treats the accepted answers as a set: two lists
    with the same members give the same verdict, whatever their order and
    repetitions. *)
Theorem validateAnswer_set (input : string) (l l' : list string) :
  (forall a, In a l <-> In a l') ->
  validateAnswer input l = validateAnswer input l'.
Proof.
  intros Hset.
  destruct (validateAnswer input l) eqn:V, (validateAnswer input l') eqn:V';
    try reflexivity; exfalso.
  - apply validateAnswer_true_iff in V as (a & Ha & E).
    apply Hset in Ha.
    assert (T : validateAnswer input l' = true)
      by (apply validateAnswer_true_iff; now exists a).
    congruence.
  - apply validateAnswer_true_iff in V' as (a & Ha & E).
    apply Hset in Ha.
    assert (T : validateAnswer input l = true)
      by (apply validateAnswer_true_iff; now exists a).
    congruence.
Qed.

Lemma validateAnswer_set_witness :
  validateAnswer " Fruit" ["fruits"; "fruit"]
  = validateAnswer " Fruit" ["fruit"; "fruits"; "fruit"].
Proof.
  apply (validateAnswer_set " Fruit" ["fruits"; "fruit"] ["fruit"; "fruits"; "fruit"]).
  intros a. simpl. tauto.
Defined.

(** X4.  Normalising beforehand changes no verdict: [validateAnswer] gives
    the same answer on a normalised guess, and on normalised accepted
    answers, as on the raw ones. *)
Theorem validateAnswer_normalized (input : string) (accepted : list string) :
  validateAnswer (normalizeInput input) accepted = validateAnswer input accepted
  /\ validateAnswer input (map normalizeInput accepted)
     = validateAnswer input accepted.
Proof.
  split.
  - unfold validateAnswer. now rewrite normalizeInput_twice.
  - unfold validateAnswer.
    induction accepted as [|a l IH]; simpl; [reflexivity|].
    now rewrite IH, normalizeInput_twice.
Qed.

(* ====================================================================== *)
(** * The page and the game state *)
(* ====================================================================== *)

Ltac js_unfold_all :=
  unfold step, handler, handleFormSubmit, handleNextPuzzle, handleReplay,
         initApp, loadPuzzles, responseOf, createConfetti in *;
  js_unfold.

(** Case analysis on the tests the code makes, one at a time, reusing what
    is already known about a test. *)
Ltac js_split :=
  match goal with
  | |- context [match ?x with _ => _ end] =>
      lazymatch x with
      | context [match _ with _ => _ end] => fail
      | _ => destruct x eqn:?
      end
  end.
Ltac js_known :=
  repeat match goal with
         | H : ?x = _ |- context [match ?x with _ => _ end] => rewrite H
         end.
Ltac js_cases := repeat (js_eval; js_known; try js_split).

Lemma slice0_firstn {A} (n : Z) (l : list A) :
  0 <= n -> slice0 n l = firstn (Z.to_nat n) l.
Proof.
  intros Hn. unfold slice0.
  destruct (n <? 0) eqn:E; [apply Z.ltb_lt in E; lia|].
  destruct (Z.le_gt_cases n (Z.of_nat (length l))) as [L|L].
  - now rewrite Z.min_l.
  - rewrite Z.min_r, Nat2Z.id by lia.
    rewrite firstn_all. symmetry. apply firstn_all2. lia.
Qed.

(** Adding the clues from position [length shown] on to the clues shown
    gives the clues to show, when one more clue is revealed. *)
Lemma slice0_extend {A} (n : Z) (l : list A) :
  0 <= n ->
  (slice0 n l ++ skipn (length (slice0 n l)) (slice0 (n + 1) l))%list
  = slice0 (n + 1) l.
Proof.
  intros Hn. unfold slice0.
  destruct (n <? 0) eqn:E1; [apply Z.ltb_lt in E1; lia|].
  destruct (n + 1 <? 0) eqn:E2; [apply Z.ltb_lt in E2; lia|].
  set (a := Z.to_nat (Z.min n (Z.of_nat (length l)))).
  set (b := Z.to_nat (Z.min (n + 1) (Z.of_nat (length l)))).
  assert (Hab : (a <= b)%nat) by (subst a b; lia).
  clearbody a b. clear - Hab.
  revert a b Hab. induction l as [|x l IH]; intros a b Hab.
  - now rewrite !firstn_nil.
  - destruct a as [|a]; [reflexivity|]. destruct b as [|b]; [lia|].
    simpl. f_equal. apply IH. lia.
Qed.

Lemma step_cluesInSync (ev : Event) (w : World) :
  isSessionEvent ev = true ->
  1 <= revealedCluesCount (gameState w) -> cluesInSync w ->
  cluesInSync (step w ev).
Proof.
  destruct w as [g d k]. unfold cluesInSync, shownClues.
  destruct ev; js_unfold_all; js_cases.
  all: intros He H1 [Hc Hn]; try discriminate; try (split; assumption);
    try (split; reflexivity).
  all: rewrite Hc; split; [apply slice0_extend; lia | reflexivity].
Qed.

Lemma step_revealed_positive (ev : Event) (w : World) :
  1 <= revealedCluesCount (gameState w) ->
  1 <= revealedCluesCount (gameState (step w ev)).
Proof.
  intros H. rewrite step_gameState.
  destruct (afterEvent_revealedCluesCount ev (gameState w))
    as [E | [[L E] | (now & puzzleId & ps & E)]]; rewrite E; simpl; lia.
Qed.

(** X5.  From [initGame] on, through any guesses, form submissions,
    next-puzzle and replay clicks and further [initGame] calls, the clue
    section of the page shows exactly the first [revealedCluesCount] clues
    of the current puzzle (nothing when the puzzle is missing), and the clue
    counter shows [revealedCluesCount]: appending only the new clues, as the
    first copy does, never leaves the page out of date. *)
Theorem page_shows_revealed_clues (now puzzleId : Z) (w : World) (evs : list Event) :
  forallb isSessionEvent evs = true ->
  let w' := run evs (worldOf (initGame now puzzleId w)) in
  cluesContainer (dom w')
  = match currentPuzzle (gameState w') with
    | Some p => firstn (Z.to_nat (revealedCluesCount (gameState w'))) (clues p)
    | None => []
    end
  /\ clueCount (dom w') = revealedCluesCount (gameState w').
Proof.
  intros Hevs w'.
  assert (Inv : 1 <= revealedCluesCount (gameState w') /\ cluesInSync w').
  { subst w'.
    assert (I0 : 1 <= revealedCluesCount (gameState (worldOf (initGame now puzzleId w)))
                 /\ cluesInSync (worldOf (initGame now puzzleId w))).
    { destruct (initGame_gameState now puzzleId w) as [_ G].
      split; [rewrite G; simpl; lia|].
      unfold cluesInSync, shownClues, currentPuzzle.
      rewrite initGame_clues, G. simpl.
      split; [reflexivity|].
      destruct w as [g d k]. js_unfold. js_cases; reflexivity. }
    revert I0 Hevs. generalize (worldOf (initGame now puzzleId w)).
    induction evs as [|ev evs IH]; intros w0 I0 Hevs; [exact I0|].
    simpl in Hevs. apply andb_true_iff in Hevs as [He Hevs].
    simpl. apply IH; [|exact Hevs]. destruct I0 as [I1 I2]. split.
    - now apply step_revealed_positive.
    - now apply step_cluesInSync. }
  destruct Inv as [H1 [Hc Hn]]. split; [|exact Hn].
  rewrite Hc. unfold shownClues.
  destruct (currentPuzzle (gameState w')); [|reflexivity].
  apply slice0_firstn. lia.
Qed.

Lemma page_shows_revealed_clues_witness :
  let w' := run [EvProcessGuess "nuts"; EvSubmit "trees"; EvNextPuzzle 3;
                 EvSubmit "shapes"; EvReplay 4; EvProcessGuess "sizes"]
                (worldOf (initGame 0 1 demoWorld)) in
  cluesContainer (dom w') = ["red"; "green"]
  /\ cluesContainer (dom w')
     = match currentPuzzle (gameState w') with
       | Some p => firstn (Z.to_nat (revealedCluesCount (gameState w'))) (clues p)
       | None => []
       end
  /\ clueCount (dom w') = revealedCluesCount (gameState w').
Proof.
  split; [reflexivity|].
  apply (page_shows_revealed_clues 0 1 demoWorld
           [EvProcessGuess "nuts"; EvSubmit "trees"; EvNextPuzzle 3;
            EvSubmit "shapes"; EvReplay 4; EvProcessGuess "sizes"]).
  reflexivity.
Defined.

Lemma step_countersInSync (ev : Event) (w : World) :
  countersInSync w -> countersInSync (step w ev).
Proof.
  destruct w as [g d k]. unfold countersInSync.
  destruct ev; js_unfold_all; js_cases.
  all: intros [Hc Hs]; split; try assumption; try reflexivity.
  all: try (intros n0 E; injection E as <-; reflexivity).
  all: intros n0 E; congruence.
Qed.

(** X6.  From [initGame] on, through any events, the guess counter (when
    the page has one) shows the number of recorded guesses, and the
    [data-state] attribute of the game screen equals [gameState.uiState]. *)
Theorem page_counters_follow_state (now puzzleId : Z) (w : World) (evs : list Event) :
  let w' := run evs (worldOf (initGame now puzzleId w)) in
  (forall n, guessCounter (dom w') = Some n -> n = length (guesses (gameState w')))
  /\ dataState (dom w') = uiState (gameState w').
Proof.
  intros w'. subst w'.
  assert (I0 : countersInSync (worldOf (initGame now puzzleId w))).
  { destruct w as [g d k]. unfold countersInSync. js_unfold. js_cases.
    all: split; try reflexivity.
    all: first [intros n0 E; injection E as <-; reflexivity
               | intros n0 E; congruence]. }
  revert I0. generalize (worldOf (initGame now puzzleId w)).
  induction evs as [|ev evs IH]; intros w0 I0; [exact I0|].
  simpl. apply IH. now apply step_countersInSync.
Qed.

Lemma step_never_try_again (ev : Event) (w : World) :
  revealedCluesCount (gameState w) <= Z.of_nat (length (guesses (gameState w))) + 1 ->
  feedback (dom w) <> ("Incorrect! Try again.", error) ->
  feedback (dom (step w ev)) <> ("Incorrect! Try again.", error).
Proof.
  destruct w as [g d k].
  destruct ev; js_unfold_all; js_cases.
  all: intros H1 Hf; try assumption; try discriminate.
  all: exfalso;
    repeat match goal with
           | H : (_ <=? _)%nat = false |- _ => apply Nat.leb_gt in H
           | H : (_ <? _) = false |- _ => apply Z.ltb_ge in H
           end;
    rewrite length_app in *; simpl in *; lia.
Qed.

Lemma step_clues_within_guesses (ev : Event) (w : World) :
  revealedCluesCount (gameState w) <= Z.of_nat (length (guesses (gameState w))) + 1 ->
  revealedCluesCount (gameState (step w ev))
  <= Z.of_nat (length (guesses (gameState (step w ev)))) + 1.
Proof.
  rewrite step_gameState. generalize (gameState w). clear w. intros g H.
  destruct ev as [now puzzleId|guess|typed|now|now|now fetched]; simpl;
    unfold afterGuess;
    repeat match goal with
           | |- context [if ?b then _ else _] => destruct b eqn:?
           | |- context [match ?o with Some _ => _ | None => _ end] => destruct o eqn:?
           end; simpl; try rewrite length_app; simpl; lia.
Qed.

(** X7.  The branch of [processGuess] that answers "Incorrect! Try again."
    (all five clues shown, guesses left) is never taken: in no run of events
    from the initial game state does the feedback line show that text. *)
Theorem try_again_never_shown (d : Dom) (k : list ConsoleError) (evs : list Event) :
  feedback d <> ("Incorrect! Try again.", error) ->
  feedback (dom (run evs (mkWorld initialGameState d k)))
  <> ("Incorrect! Try again.", error).
Proof.
  intros Hf.
  assert (I0 : revealedCluesCount (gameState (mkWorld initialGameState d k))
               <= Z.of_nat (length (guesses (gameState (mkWorld initialGameState d k)))) + 1)
    by (simpl; lia).
  assert (F0 : feedback (dom (mkWorld initialGameState d k))
               <> ("Incorrect! Try again.", error)) by exact Hf.
  revert I0 F0. generalize (mkWorld initialGameState d k).
  induction evs as [|ev evs IH]; intros w0 I0 F0; [exact F0|].
  simpl. apply IH.
  - now apply step_clues_within_guesses.
  - now apply step_never_try_again.
Qed.

Lemma try_again_never_shown_witness :
  feedback (dom (run (EvInitApp 0 (Some [fruits; colours])
                      :: repeat (EvProcessGuess "nuts") 4)
                     (mkWorld initialGameState blankDom [])))
  <> ("Incorrect! Try again.", error).
Proof.
  apply (try_again_never_shown blankDom []
           (EvInitApp 0 (Some [fruits; colours]) :: repeat (EvProcessGuess "nuts") 4)).
  discriminate.
Defined.

(* ====================================================================== *)
(** * How a game ends *)
(* ====================================================================== *)

Lemma afterGuess_outcome (guess : string) (g : GameState) :
  currentPuzzle g <> None ->
  (inStep g
   /\ (status g = won ->
       revealedCluesCount g = Z.of_nat (length (guesses g))
       /\ (1 <= length (guesses g) <= 5)%nat)
   /\ (status g = lost ->
       length (guesses g) = 5%nat /\ revealedCluesCount g = 5)) ->
  let g' := afterGuess guess g in
  inStep g'
  /\ (status g' = won ->
      revealedCluesCount g' = Z.of_nat (length (guesses g'))
      /\ (1 <= length (guesses g') <= 5)%nat)
  /\ (status g' = lost ->
      length (guesses g') = 5%nat /\ revealedCluesCount g' = 5).
Proof.
  intros Hp (Hin & Hwon & Hlost) g'.
  split; [now apply afterGuess_inStep|]. subst g'. unfold afterGuess.
  destruct (negb (truthy (trim guess))); [now split|].
  destruct (Status_eqb (status g) playing) eqn:S; cbn [negb]; [|now split].
  apply Status_eqb_playing in S. destruct (Hin S) as [Hr Hl].
  destruct (currentPuzzle g) as [p|]; [|congruence].
  destruct (validateAnswer guess (acceptedAnswers p)).
  { cbn. rewrite length_app. cbn [length].
    split; [intros _; lia | discriminate]. }
  cbn [guesses set_guesses]. rewrite length_app. cbn [length].
  destruct (5 <=? length (guesses g) + 1)%nat eqn:L.
  - apply Nat.leb_le in L. cbn. rewrite length_app. cbn [length].
    split; [discriminate | intros _; lia].
  - destruct (revealedCluesCount g <? 5); cbn; rewrite S;
      split; discriminate.
Qed.

(** X8.  A game started on a puzzle of the repository never records more
    than five guesses.  When it is won, the number of revealed clues equals
    the number of guesses made (the winning guess reveals nothing); when it
    is lost, exactly five guesses were recorded and all five clues were
    revealed. *)
Theorem game_ends_within_five_guesses
        (now puzzleId : Z) (w : World) (p : Puzzle) (gs : list string) :
  findPuzzle puzzleId (puzzles (gameState w)) = Some p ->
  let g' := gameState (run (map EvProcessGuess gs) (worldOf (initGame now puzzleId w))) in
  (length (guesses g') <= 5)%nat
  /\ (status g' = won ->
      revealedCluesCount g' = Z.of_nat (length (guesses g'))
      /\ (1 <= length (guesses g'))%nat)
  /\ (status g' = lost ->
      length (guesses g') = 5%nat /\ revealedCluesCount g' = 5).
Proof.
  intros Hp g'. subst g'. rewrite run_guesses_gameState.
  destruct (initGame_gameState now puzzleId w) as [_ ->].
  assert (P0 : currentPuzzle (started now puzzleId (puzzles (gameState w))) <> None)
    by (unfold currentPuzzle; simpl; congruence).
  assert (I0 : inStep (started now puzzleId (puzzles (gameState w)))
               /\ (status (started now puzzleId (puzzles (gameState w))) = won ->
                   revealedCluesCount (started now puzzleId (puzzles (gameState w)))
                   = Z.of_nat (length (guesses (started now puzzleId (puzzles (gameState w)))))
                   /\ (1 <= length (guesses (started now puzzleId (puzzles (gameState w)))) <= 5)%nat)
               /\ (status (started now puzzleId (puzzles (gameState w))) = lost ->
                   length (guesses (started now puzzleId (puzzles (gameState w)))) = 5%nat
                   /\ revealedCluesCount (started now puzzleId (puzzles (gameState w))) = 5)).
  { split; [intros _; simpl; split; [reflexivity | lia]|].
    split; discriminate. }
  change (mkGameState (puzzles (gameState w)) puzzleId 1 [] playing uiPlaying (Some now))
    with (started now puzzleId (puzzles (gameState w))).
  revert P0 I0. generalize (started now puzzleId (puzzles (gameState w))).
  induction gs as [|guess gs IH]; intros g P0 I0.
  - simpl. destruct I0 as (Hin & Hwon & Hlost).
    split; [|split].
    + destruct (status g) eqn:S.
      * destruct (Hin S). lia.
      * destruct (Hwon eq_refl). lia.
      * destruct (Hlost eq_refl). lia.
    + intros S. destruct (Hwon S). split; [assumption | lia].
    + exact Hlost.
  - simpl. apply IH.
    + now rewrite afterGuess_currentPuzzle.
    + now apply afterGuess_outcome.
Qed.

Lemma game_ends_within_five_guesses_witness :
  let g' := gameState (run (map EvProcessGuess ["nuts"; "trees"; "FRUIT "; "pears"])
                           (worldOf (initGame 0 1 demoWorld))) in
  (status g' = won /\ length (guesses g') = 3%nat)
  /\ (length (guesses g') <= 5)%nat
  /\ (status g' = won ->
      revealedCluesCount g' = Z.of_nat (length (guesses g'))
      /\ (1 <= length (guesses g'))%nat)
  /\ (status g' = lost ->
      length (guesses g') = 5%nat /\ revealedCluesCount g' = 5).
Proof.
  split; [split; reflexivity|].
  apply (game_ends_within_five_guesses 0 1 demoWorld fruits
           ["nuts"; "trees"; "FRUIT "; "pears"]).
  reflexivity.
Defined.

(** X9.  On a session whose puzzle is not in the repository, every guess
    that is not blank is recorded and then makes [processGuess] raise: the
    session stays in play with its count of revealed clues unchanged, so it
    can be neither won nor lost, however many guesses are made. *)
Theorem missing_puzzle_never_ends (w : World) (gs : list string) :
  currentPuzzle (gameState w) = None ->
  status (gameState w) = playing ->
  Forall (fun guess => normalizeInput guess <> "") gs ->
  let w' := run (map EvProcessGuess gs) w in
  status (gameState w') = playing
  /\ guesses (gameState w') = (guesses (gameState w) ++ gs)%list
  /\ revealedCluesCount (gameState w') = revealedCluesCount (gameState w)
  /\ (forall guess, normalizeInput guess <> "" ->
                    threw (processGuess guess w') = true).
Proof.
  intros Hp Hs Hall w'. subst w'.
  assert (G : gameState (run (map EvProcessGuess gs) w)
              = set_guesses (guesses (gameState w) ++ gs) (gameState w)).
  { rewrite run_guesses_gameState. revert Hp Hs. generalize (gameState w).
    induction Hall as [|guess gs Hn _ IH]; intros g Hp Hs.
    - simpl. rewrite app_nil_r. now destruct g.
    - simpl.
      assert (E : afterGuess guess g = set_guesses (guesses g ++ [guess]) g).
      { unfold afterGuess. now rewrite (not_blank _ Hn), Hs, Hp. }
      rewrite E, IH by (rewrite <- E, ?afterGuess_currentPuzzle; rewrite ?E; assumption).
      simpl. now rewrite <- app_assoc. }
  rewrite G. repeat split.
  - exact Hs.
  - intros guess Hn.
    apply (processGuess_no_puzzle _ guess (not_blank _ Hn)); rewrite G.
    + exact Hs.
    + exact Hp.
Qed.

Lemma missing_puzzle_never_ends_witness :
  let w := worldOf (initGame 0 999 demoWorld) in
  let gs := repeat "fruits" 7 in
  let w' := run (map EvProcessGuess gs) w in
  status (gameState w') = playing
  /\ guesses (gameState w') = (guesses (gameState w) ++ gs)%list
  /\ revealedCluesCount (gameState w') = revealedCluesCount (gameState w)
  /\ (forall guess, normalizeInput guess <> "" ->
                    threw (processGuess guess w') = true).
Proof.
  apply (missing_puzzle_never_ends (worldOf (initGame 0 999 demoWorld))
           (repeat "fruits" 7)); [reflexivity | reflexivity |].
  repeat constructor; discriminate.
Defined.

(** X10.  A guess is recorded exactly when it is not blank and the session
    is in play, whether it is right or wrong and even when [processGuess]
    raises; it is appended unchanged (not normalised) at the end.  No guess
    changes the repository, the current puzzle id or the start time. *)
Theorem guess_recorded_when_in_play (guess : string) (w : World) :
  let g := gameState w in
  let g' := gameState (worldOf (processGuess guess w)) in
  guesses g' = (if Status_eqb (status g) playing && truthy (trim guess)
                then guesses g ++ [guess] else guesses g)%list
  /\ puzzles g' = puzzles g
  /\ currentPuzzleId g' = currentPuzzleId g
  /\ startTime g' = startTime g.
Proof.
  intros g g'. subst g g'. rewrite processGuess_gameState.
  generalize (gameState w). intros g. unfold afterGuess.
  destruct (truthy (trim guess)); cbn [negb];
    [|rewrite andb_false_r; now repeat split].
  destruct (Status_eqb (status g) playing); cbn [negb andb]; [|now repeat split].
  destruct (currentPuzzle g) as [p|]; [|now repeat split].
  destruct (validateAnswer guess (acceptedAnswers p)); [now repeat split|].
  destruct (5 <=? _)%nat; [now repeat split|].
  destruct (revealedCluesCount g <? 5); now repeat split.
Qed.

(* ====================================================================== *)
(** * The two copies of the logic *)
(* ====================================================================== *)

Ltac js_unfold_loop :=
  unfold LoopBack.processGuess, LoopBack.completeGame, LoopBack.handleReplay,
         LoopBack.handleNextPuzzle, LoopBack.initGame,
         LoopBack.updateCluesDisplay, LoopBack.getRevealedClues in *.

(** X11.  Rendering only the new clues (first copy) and rendering all
    revealed clues again (second copy) give the same page whenever the
    current puzzle exists and the clues on the page are the first of the
    revealed ones. *)
Theorem updateCluesDisplay_copies_agree (w : World) :
  currentPuzzle (gameState w) <> None ->
  firstn (length (cluesContainer (dom w))) (shownClues (gameState w))
  = cluesContainer (dom w) ->
  LoopBack.updateCluesDisplay w = updateCluesDisplay w.
Proof.
  destruct w as [g d k]. unfold shownClues.
  js_unfold_loop. js_unfold. js_cases; intros Hp Hpre; [|congruence].
  assert (E : (cluesContainer d
               ++ skipn (length (cluesContainer d))
                        (slice0 (revealedCluesCount g) (clues p)))%list
              = slice0 (revealedCluesCount g) (clues p)).
  { rewrite <- Hpre at 1. apply firstn_skipn. }
  rewrite E. now destruct d.
Qed.

Lemma updateCluesDisplay_copies_agree_witness :
  LoopBack.updateCluesDisplay
    (worldOf (modifyGame (set_revealedCluesCount 3) demoWorld))
  = updateCluesDisplay
      (worldOf (modifyGame (set_revealedCluesCount 3) demoWorld)).
Proof.
  apply (updateCluesDisplay_copies_agree
           (worldOf (modifyGame (set_revealedCluesCount 3) demoWorld)));
    [discriminate | reflexivity].
Defined.

(** X12.  On a puzzle of the repository the two copies of [initGame] do the
    same: same result, same game state, same page. *)
Theorem initGame_copies_agree (now puzzleId : Z) (w : World) :
  findPuzzle puzzleId (puzzles (gameState w)) <> None ->
  LoopBack.initGame now puzzleId w = initGame now puzzleId w.
Proof.
  destruct w as [g d k].
  js_unfold_loop. js_unfold. js_cases; intros Hp; try congruence;
    destruct d; reflexivity.
Qed.

Lemma initGame_copies_agree_witness :
  LoopBack.initGame 5 2 demoWorld = initGame 5 2 demoWorld.
Proof. apply (initGame_copies_agree 5 2 demoWorld). discriminate. Defined.

(** X13.  The two copies of [processGuess] make the same transition: on
    every world and every guess they leave the same game state and the
    same console, and one raises exactly when the other does.  On the page
    they leave the same clue counter, guess counter, input, [data-state],
    result category and confetti, the same kind of feedback and the same
    won-or-lost class of the result; only the texts of the feedback and of
    the result may differ.  The clue list is the same too when the page
    showed the revealed clues before the guess. *)
Theorem processGuess_copies_agree (guess : string) (w : World) :
  let c1 := processGuess guess w in
  let c2 := LoopBack.processGuess guess w in
  let d1 := dom (worldOf c1) in
  let d2 := dom (worldOf c2) in
  gameState (worldOf c2) = gameState (worldOf c1)
  /\ threw c2 = threw c1
  /\ console (worldOf c2) = console (worldOf c1)
  /\ (clueCount d2 = clueCount d1
      /\ guessCounter d2 = guessCounter d1
      /\ guessInput d2 = guessInput d1
      /\ dataState d2 = dataState d1
      /\ resultCategory d2 = resultCategory d1
      /\ confetti d2 = confetti d1
      /\ snd (feedback d2) = snd (feedback d1)
      /\ snd (resultStatus d2) = snd (resultStatus d1))
  /\ (0 <= revealedCluesCount (gameState w) ->
      cluesContainer (dom w) = shownClues (gameState w) ->
      cluesContainer d2 = cluesContainer d1).
Proof.
  destruct w as [g d k]. unfold shownClues.
  js_unfold_loop. js_unfold. js_cases.
  all: repeat split; try reflexivity.
  all: intros Hn Hc; try reflexivity.
  all: rewrite Hc; symmetry; apply slice0_extend; exact Hn.
Qed.

(** Off that condition the clue lists can differ: with a stale first clue
    on the page, the first copy keeps it and the second replaces it. *)
Example processGuess_copies_stale_page :
  let w := worldOf (modifyDom (set_cluesContainer ["zzz"]) demoWorld) in
  cluesContainer (dom (worldOf (processGuess "nuts" w))) = ["zzz"; "banana"]
  /\ cluesContainer (dom (worldOf (LoopBack.processGuess "nuts" w)))
     = ["apple"; "banana"].
Proof. split; reflexivity. Qed.

(* ====================================================================== *)
(** * Walking through the puzzles *)
(* ====================================================================== *)

Lemma LoopBack_handleNextPuzzle_puzzles (now : Z) (w : World) :
  puzzles (gameState (worldOf (LoopBack.handleNextPuzzle now w)))
  = puzzles (gameState w).
Proof.
  destruct w as [g d k]. js_unfold_loop. js_unfold. js_cases; reflexivity.
Qed.

(** X14.  In the second copy the next-puzzle button walks round the ids
    1..n: from a current id in that range, [k] presses lead to the id
    [(id - 1 + k) mod n + 1], so the id stays in the range and [n] presses
    lead back to where they started. *)
Theorem next_puzzle_cycles (now : Z) (w : World) (k : nat) :
  let n := Z.of_nat (length (puzzles (gameState w))) in
  let cur := currentPuzzleId (gameState w) in
  1 <= cur <= n ->
  currentPuzzleId (gameState (pressNextLoop now k w))
  = (cur - 1 + Z.of_nat k) mod n + 1
  /\ 1 <= currentPuzzleId (gameState (pressNextLoop now k w)) <= n
  /\ currentPuzzleId (gameState (pressNextLoop now (length (puzzles (gameState w))) w))
     = cur.
Proof.
  intros n cur Hcur.
  assert (Hk : forall j,
             currentPuzzleId (gameState (pressNextLoop now j w))
             = (cur - 1 + Z.of_nat j) mod n + 1
             /\ puzzles (gameState (pressNextLoop now j w)) = puzzles (gameState w)).
  { induction j as [|j [IHc IHp]].
    - simpl. split; [|reflexivity]. fold cur. rewrite Z.add_0_r, Z.mod_small; lia.
    - change (pressNextLoop now (S j) w)
        with (worldOf (LoopBack.handleNextPuzzle now (pressNextLoop now j w))).
      rewrite LoopBack_handleNextPuzzle_puzzles. split; [|exact IHp].
      pose proof (LoopBack_handleNextPuzzle_session now (pressNextLoop now j w)) as E.
      unfold session in E. cbv zeta in E. injection E as E _ _ _.
      rewrite E, IHc, IHp. fold n.
      replace (cur - 1 + Z.of_nat (S j)) with (cur - 1 + Z.of_nat j + 1) by lia.
      set (x := cur - 1 + Z.of_nat j).
      assert (Hx : 0 <= x) by (subst x; lia).
      destruct (x mod n + 1 + 1 <=? n) eqn:L.
      + apply Z.leb_le in L.
        rewrite <- (Z.mod_small (x mod n + 1) n) at 1 by (pose proof (Z.mod_pos_bound x n); lia).
        rewrite Zplus_mod_idemp_l. reflexivity.
      + apply Z.leb_gt in L.
        pose proof (Z.mod_pos_bound x n ltac:(lia)) as B.
        assert (Hm : x mod n = n - 1) by lia.
        rewrite <- Zplus_mod_idemp_l, Hm.
        replace (n - 1 + 1) with n by lia. rewrite Z.mod_same by lia. reflexivity. }
  split; [apply Hk|]. split.
  - destruct (Hk k) as [-> _].
    pose proof (Z.mod_pos_bound (cur - 1 + Z.of_nat k) n ltac:(lia)). lia.
  - destruct (Hk (length (puzzles (gameState w)))) as [-> _]. fold n.
    replace (cur - 1 + n) with (cur - 1 + 1 * n) by lia.
    rewrite Z.mod_add, Z.mod_small; lia.
Qed.

Lemma next_puzzle_cycles_witness :
  let w := worldOf (initGame 0 2 demoWorld) in
  currentPuzzleId (gameState (pressNextLoop 0 3 w)) = (2 - 1 + 3) mod 2 + 1
  /\ 1 <= currentPuzzleId (gameState (pressNextLoop 0 3 w)) <= 2
  /\ currentPuzzleId (gameState (pressNextLoop 0 2 w)) = 2.
Proof.
  apply (next_puzzle_cycles 0 (worldOf (initGame 0 2 demoWorld)) 3).
  simpl. lia.
Defined.

(** X15.  In the first copy the next-puzzle button stops at the last
    puzzle: after [k] presses the current id is the smaller of [id + k] and
    the number of puzzles (and the id it started with, when that was
    already beyond), and once there, further presses leave the session as
    it is and show the completion screen. *)
Theorem next_puzzle_stops_at_last (now : Z) (w : World) (k : nat) :
  let n := Z.of_nat (length (puzzles (gameState w))) in
  let cur := currentPuzzleId (gameState w) in
  currentPuzzleId (gameState (pressNext now k w))
  = Z.max cur (Z.min (cur + Z.of_nat k) n)
  /\ (n <= cur ->
      session (pressNext now k w) = session w
      /\ (k <> 0%nat -> uiState (gameState (pressNext now k w)) = uiCompleted)).
Proof.
  intros n cur.
  assert (Hk : forall j,
             currentPuzzleId (gameState (pressNext now j w))
             = Z.max cur (Z.min (cur + Z.of_nat j) n)
             /\ puzzles (gameState (pressNext now j w)) = puzzles (gameState w)).
  { induction j as [|j [IHc IHp]].
    - simpl. split; [fold cur; lia | reflexivity].
    - change (pressNext now (S j) w)
        with (worldOf (handleNextPuzzle now (pressNext now j w))).
      rewrite handleNextPuzzle_gameState. cbv zeta. rewrite IHc, IHp. fold n.
      destruct (Z.max cur (Z.min (cur + Z.of_nat j) n) + 1 <=? n) eqn:L.
      + apply Z.leb_le in L. simpl. split; [lia | reflexivity].
      + apply Z.leb_gt in L. simpl. rewrite IHc, IHp. split; [lia | reflexivity]. }
  split; [apply Hk|]. intros Hlast.
  assert (Hs : forall j,
             session (pressNext now j w) = session w
             /\ (j <> 0%nat -> uiState (gameState (pressNext now j w)) = uiCompleted)).
  { induction j as [|j [IHs IHu]]; [split; [reflexivity | congruence]|].
    change (pressNext now (S j) w)
      with (worldOf (handleNextPuzzle now (pressNext now j w))).
    unfold session. rewrite handleNextPuzzle_gameState. cbv zeta.
    destruct (Hk j) as [Ec Ep]. rewrite Ec, Ep. fold n.
    assert (L : (Z.max cur (Z.min (cur + Z.of_nat j) n) + 1 <=? n) = false)
      by (apply Z.leb_gt; lia).
    rewrite L. simpl. split; [exact IHs | reflexivity]. }
  apply Hs.
Qed.

Example next_puzzle_on_demo_first_copy :
  currentPuzzleId (gameState (pressNext 0 5 demoWorld)) = 2
  /\ uiState (gameState (pressNext 0 5 demoWorld)) = uiCompleted.
Proof. split; reflexivity. Qed.

(* ====================================================================== *)
(** * Starting up and replaying *)
(* ====================================================================== *)

Lemma initGame_page (now puzzleId : Z) (w : World) :
  let d' := dom (worldOf (initGame now puzzleId w)) in
  clueCount d' = 1
  /\ feedback d' = ("", info)
  /\ guessInput d' = ""
  /\ dataState d' = uiPlaying
  /\ guessCounter d' = option_map (fun _ => 0%nat) (guessCounter (dom w))
  /\ resultStatus d' = resultStatus (dom w)
  /\ resultCategory d' = resultCategory (dom w).
Proof.
  destruct w as [g d k]. js_unfold. js_cases; repeat split; try reflexivity.
  all: match goal with H : guessCounter _ = _ |- _ => now rewrite H end.
Qed.


Lemma processGuess_keeps_counter (guess : string) (w : World) :
  option_map (fun _ => 0%nat) (guessCounter (dom (worldOf (processGuess guess w))))
  = option_map (fun _ => 0%nat) (guessCounter (dom w)).
Proof.
  destruct w as [g d k]. js_unfold. js_cases; try reflexivity.
  all: match goal with H : guessCounter _ = _ |- _ => now rewrite H end.
Qed.

(** X17.  Replay undoes the guesses: after any guesses on a started game,
    [handleReplay] gives the game state the start gave, and the same
    playing screen (clues, clue counter, feedback, input, guess counter,
    [data-state]).  It never raises in the first copy. *)
Theorem replay_undoes_guesses (now puzzleId : Z) (w : World) (gs : list string) :
  let w0 := worldOf (initGame now puzzleId w) in
  let c := handleReplay now (run (map EvProcessGuess gs) w0) in
  threw c = false
  /\ gameState (worldOf c) = gameState w0
  /\ cluesContainer (dom (worldOf c)) = cluesContainer (dom w0)
  /\ clueCount (dom (worldOf c)) = clueCount (dom w0)
  /\ feedback (dom (worldOf c)) = feedback (dom w0)
  /\ guessInput (dom (worldOf c)) = guessInput (dom w0)
  /\ guessCounter (dom (worldOf c)) = guessCounter (dom w0)
  /\ dataState (dom (worldOf c)) = dataState (dom w0).
Proof.
  intros w0 c.
  set (w1 := run (map EvProcessGuess gs) w0) in *.
  assert (Ec : c = initGame now (currentPuzzleId (gameState w1)) w1) by reflexivity.
  assert (Hkeep : puzzles (gameState w1) = puzzles (gameState w0)
                  /\ currentPuzzleId (gameState w1) = currentPuzzleId (gameState w0)
                  /\ option_map (fun _ => 0%nat) (guessCounter (dom w1))
                     = option_map (fun _ => 0%nat) (guessCounter (dom w0))).
  { subst w1. generalize w0. clear.
    induction gs as [|guess gs IH]; intros w0; [now repeat split|].
    simpl. destruct (IH (step w0 (EvProcessGuess guess))) as (A & B & C).
    rewrite A, B, C. unfold step. simpl handler.
    rewrite processGuess_gameState, processGuess_keeps_counter.
    destruct (afterGuess_puzzle guess (gameState w0)) as [-> ->].
    now repeat split. }
  destruct Hkeep as (Hp & Hid & Hcnt).
  assert (G0 : gameState w0 = started now puzzleId (puzzles (gameState w)))
    by apply initGame_gameState.
  assert (Hid0 : currentPuzzleId (gameState w0) = puzzleId) by now rewrite G0.
  assert (Hp0 : puzzles (gameState w0) = puzzles (gameState w)) by now rewrite G0.
  rewrite Ec, Hid, Hid0.
  destruct (initGame_gameState now puzzleId w1) as [Ht Hg].
  destruct (initGame_page now puzzleId w1) as (P1 & P2 & P3 & P4 & P5 & _).
  destruct (initGame_page now puzzleId w) as (Q1 & Q2 & Q3 & Q4 & Q5 & _).
  fold w0 in Q1, Q2, Q3, Q4, Q5.
  split; [exact Ht|]. split; [now rewrite Hg, G0, Hp, Hp0|].
  split.
  { rewrite initGame_clues, Hp, Hp0. symmetry. apply initGame_clues. }
  split; [congruence|]. split; [congruence|]. split; [congruence|].
  split; [|congruence].
  rewrite P5, Hcnt, Q5. now destruct (guessCounter (dom w)).
Qed.

(* ====================================================================== *)
(** * Reading the revealed clues *)
(* ====================================================================== *)

(** X18.  [getRevealedClues] changes neither the game state nor the page.
    On an existing puzzle both copies return the first [revealedCluesCount]
    clues, in order, and never more than the puzzle has.  On a missing
    puzzle the first copy returns no clue and writes a [console.error]
    message, where the second copy raises. *)
Theorem getRevealedClues_reads_prefix (w : World) :
  0 <= revealedCluesCount (gameState w) ->
  let c := getRevealedClues w in
  let c2 := LoopBack.getRevealedClues w in
  threw c = false
  /\ gameState (worldOf c) = gameState w /\ dom (worldOf c) = dom w
  /\ worldOf c2 = w
  /\ match currentPuzzle (gameState w) with
     | Some p =>
         valueOf c = Some (firstn (Z.to_nat (revealedCluesCount (gameState w))) (clues p))
         /\ valueOf c2 = valueOf c
         /\ console (worldOf c) = console w
     | None =>
         valueOf c = Some []
         /\ threw c2 = true
         /\ console (worldOf c)
            = (console w ++ [NoPuzzleFoundForID (currentPuzzleId (gameState w))])%list
     end.
Proof.
  intros Hn. destruct w as [g d k]. simpl in Hn.
  js_unfold_loop. js_unfold. js_cases; repeat split;
    now rewrite slice0_firstn.
Qed.

Lemma getRevealedClues_reads_prefix_witness :
  let w := run (repeat (EvProcessGuess "nuts") 2) demoWorld in
  valueOf (getRevealedClues w) = Some ["apple"; "banana"; "cherry"]
  /\ threw (getRevealedClues w) = false
  /\ gameState (worldOf (getRevealedClues w)) = gameState w
  /\ dom (worldOf (getRevealedClues w)) = dom w
  /\ worldOf (LoopBack.getRevealedClues w) = w
  /\ match currentPuzzle (gameState w) with
     | Some p =>
         valueOf (getRevealedClues w)
         = Some (firstn (Z.to_nat (revealedCluesCount (gameState w))) (clues p))
         /\ valueOf (LoopBack.getRevealedClues w) = valueOf (getRevealedClues w)
         /\ console (worldOf (getRevealedClues w)) = console w
     | None =>
         valueOf (getRevealedClues w) = Some []
         /\ threw (LoopBack.getRevealedClues w) = true
         /\ console (worldOf (getRevealedClues w))
            = (console w ++ [NoPuzzleFoundForID (currentPuzzleId (gameState w))])%list
     end.
Proof.
  split; [reflexivity|].
  apply (getRevealedClues_reads_prefix (run (repeat (EvProcessGuess "nuts") 2) demoWorld)).
  simpl. lia.
Defined.

(* ====================================================================== *)
(** * The test runner *)
(* ====================================================================== *)

Lemma runTests_counts (ts : list (string * ValidationTest.TestFn)) :
  forall r : ValidationTest.TestRunner,
    let r' := ValidationTest.runTests ts r in
    ValidationTest.passed r'
    = (ValidationTest.passed r
       + length (filter (fun t => match snd t with None => true | Some _ => false end) ts))%nat
    /\ ValidationTest.failed r'
       = (ValidationTest.failed r
          + length (filter (fun t => match snd t with None => false | Some _ => true end) ts))%nat
    /\ map ValidationTest.description (ValidationTest.tests r')
       = (map ValidationTest.description (ValidationTest.tests r) ++ map fst ts)%list.
Proof.
  induction ts as [|[desc fn] ts IH]; intros r; simpl.
  - now rewrite Nat.add_0_r, Nat.add_0_r, app_nil_r.
  - destruct (IH (ValidationTest.test desc fn r)) as (A & B & C).
    unfold ValidationTest.runTests in *. rewrite A, B, C.
    destruct fn; simpl; rewrite map_app; simpl; rewrite <- app_assoc; simpl;
      repeat split; lia.
Qed.

(** X19.  The test runner keeps its books: after any tests run on a new
    runner, [passed] is the number of test functions that returned and
    [failed] the number that raised, so they add up to the number of tests
    run; the tests are recorded in the order they ran; and [summary] returns
    true exactly when no test raised. *)
Theorem test_runner_counts (ts : list (string * ValidationTest.TestFn)) :
  let r := ValidationTest.runTests ts ValidationTest.newRunner in
  (ValidationTest.passed r + ValidationTest.failed r = length ts)%nat
  /\ map ValidationTest.description (ValidationTest.tests r) = map fst ts
  /\ (ValidationTest.summary r = true <-> Forall (fun t => snd t = None) ts).
Proof.
  intros r. subst r.
  destruct (runTests_counts ts ValidationTest.newRunner) as (A & B & C).
  cbv zeta in A, B, C. simpl in A, B, C.
  assert (L : forall l : list (string * ValidationTest.TestFn),
             (length (filter (fun t => match snd t with None => true | Some _ => false end) l)
              + length (filter (fun t => match snd t with None => false | Some _ => true end) l)
              = length l)%nat
             /\ (length (filter (fun t => match snd t with None => false | Some _ => true end) l)
                 = 0%nat <-> Forall (fun t => snd t = None) l)).
  { induction l as [|[desc fn] l [IH1 IH2]]; simpl.
    - split; [reflexivity|]. split; [constructor | reflexivity].
    - destruct fn as [m|]; simpl; split; try lia.
      + split; [discriminate|]. intros H. inversion H. discriminate.
      + rewrite IH2. split; [now constructor | intros H; now inversion H]. }
  destruct (L ts) as [L1 L2].
  split; [rewrite A, B; exact L1|]. split; [exact C|].
  unfold ValidationTest.summary. rewrite Nat.eqb_eq, B. exact L2.
Qed.

(** X20.  The 23 tests of [validation.test.js] pass on [validateAnswer]:
    the run ends with 23 passed, none failed, and [allPassed] true. *)
Theorem validation_suite_passes :
  let r := ValidationTest.runTests ValidationTest.suite ValidationTest.newRunner in
  ValidationTest.passed r = 23%nat
  /\ ValidationTest.failed r = 0%nat
  /\ length (ValidationTest.tests r) = 23%nat
  /\ ValidationTest.allPassed = true.
Proof. repeat split; vm_compute; reflexivity. Qed.

(* ====================================================================== *)
(** * The result panel *)
(* ====================================================================== *)

Lemma processGuess_resultShown (guess : string) (w : World) :
  resultShown w -> resultShown (worldOf (processGuess guess w)).
Proof.
  intros Hinv.
  destruct (truthy (trim guess)) eqn:T.
  2:{ rewrite (processGuess_blank w guess T). exact Hinv. }
  destruct (Status_eqb (status (gameState w)) playing) eqn:S.
  2:{ rewrite (processGuess_over w guess T); [exact Hinv|].
      intros E. apply Status_eqb_playing in E. congruence. }
  apply Status_eqb_playing in S.
  destruct (currentPuzzle (gameState w)) as [p|] eqn:P.
  2:{ destruct (processGuess_no_puzzle w guess T S P) as [_ G].
      intros Hs. rewrite G in Hs. now elim Hs. }
  destruct (validateAnswer guess (acceptedAnswers p)) eqn:V.
  { destruct (processGuess_correct w guess p T S P V) as (_ & G & _ & _ & _ & Hr & Hc).
    intros _. exists p. rewrite G. unfold currentPuzzle in *. now repeat split. }
  destruct (Nat.le_gt_cases 5 (length (guesses (gameState w)) + 1)) as [L|L].
  - destruct (processGuess_last_wrong w guess p T S P V L) as (_ & G & _ & Hr & Hc).
    intros _. exists p. rewrite G. unfold currentPuzzle in *. now repeat split.
  - destruct (processGuess_wrong w guess p T S P V L) as (_ & G).
    intros Hs. rewrite G in Hs.
    destruct (revealedCluesCount (gameState w) <? 5); now elim Hs.
Qed.

Lemma step_resultShown (ev : Event) (w : World) :
  isGuessEvent ev = true -> resultShown w -> resultShown (step w ev).
Proof.
  destruct ev as [now puzzleId|guess|typed|now|now|now fetched];
    try discriminate; intros _ Hinv.
  - apply processGuess_resultShown, Hinv.
  - change (step w (EvSubmit typed))
      with (worldOf (processGuess typed
                       (mkWorld (gameState w) (set_guessInput typed (dom w)) (console w)))).
    apply processGuess_resultShown. exact Hinv.
Qed.

(** X21.  In a game started by [initGame] and played by guesses (passed to
    [processGuess] or typed and submitted), whenever the status is won or
    lost the result panel tells the outcome ("You won!" or "Game over") and
    shows the category of the current puzzle, and the results screen is
    on. *)
Theorem result_panel_matches_status (now puzzleId : Z) (w : World) (evs : list Event) :
  forallb isGuessEvent evs = true ->
  let w' := run evs (worldOf (initGame now puzzleId w)) in
  status (gameState w') <> playing ->
  exists p,
    currentPuzzle (gameState w') = Some p
    /\ resultCategory (dom w') = category p
    /\ resultStatus (dom w')
       = (if Status_eqb (status (gameState w')) won
          then ("You won!", true) else ("Game over", false))
    /\ uiState (gameState w') = uiResults.
Proof.
  intros Hevs w'. subst w'.
  assert (I0 : resultShown (worldOf (initGame now puzzleId w))).
  { intros Hs. destruct (initGame_gameState now puzzleId w) as [_ G].
    rewrite G in Hs. now elim Hs. }
  revert I0 Hevs. generalize (worldOf (initGame now puzzleId w)).
  induction evs as [|ev evs IH]; intros w0 I0 Hevs; [exact I0|].
  simpl in Hevs. apply andb_true_iff in Hevs as [He Hevs].
  simpl. apply IH; [|exact Hevs]. now apply step_resultShown.
Qed.

Lemma result_panel_matches_status_witness :
  let w' := run (repeat (EvSubmit "nuts") 5) (worldOf (initGame 0 1 demoWorld)) in
  status (gameState w') = lost
  /\ exists p,
      currentPuzzle (gameState w') = Some p
      /\ resultCategory (dom w') = category p
      /\ resultStatus (dom w')
         = (if Status_eqb (status (gameState w')) won
            then ("You won!", true) else ("Game over", false))
      /\ uiState (gameState w') = uiResults.
Proof.
  split; [reflexivity|].
  apply (result_panel_matches_status 0 1 demoWorld (repeat (EvSubmit "nuts") 5));
    [reflexivity | intros E; vm_compute in E; discriminate E].
Defined.
